(** * ExplainX backend: the document context engine of [backend/server.js]

    A shallow embedding of the in-memory document store, the ingestion
    paths ([processDocument], the upload handler, the directory watcher)
    and the chat handler ([app.post('/api/chat')]) with its completion
    attempt and its keyword fallback search, followed by the properties
    proved about them.

    Modelling conventions.
    - A JavaScript string is a [string] of 8-bit code units (the Latin-1
      range of UTF-16); white space, case mapping and the regular
      expressions of the source are written out for that range.
    - [documentStore] is a JavaScript object whose keys are never
      canonical array indices (every key the program creates contains
      ['-']), so its enumeration order is the order of first insertion:
      it is an association list.
    - A JavaScript value that may be [undefined] is an [option].
    - The numeric score of the fallback search is an exact rational; the
      source evaluates the same expression in double precision.
    - Calls to external services are recorded in a log threaded through
      the handler. *)

From Stdlib Require Import Bool List Arith ZArith NArith QArith Lia.
From Stdlib Require Import Ascii String.
From Stdlib Require Import Sorting.Permutation Sorting.Sorted.
From Stdlib Require Import Numbers.DecimalString Numbers.DecimalN Numbers.DecimalNat.
Import ListNotations.

Local Open Scope bool_scope.
Local Open Scope list_scope.
Local Open Scope string_scope.
Local Open Scope nat_scope.

(** ** JavaScript string primitives used by the server *)

Module JsString.

(** The double quote character, for the message templates. *)
Definition dq : string := String (ascii_of_nat 34) EmptyString.

(** The line feed character. *)
Definition nl : string := String (ascii_of_nat 10) EmptyString.

(** [\s] and the characters removed by [trim()], in the Latin-1 range:
    TAB, LF, VT, FF, CR, SPACE and NBSP. *)
Definition is_space (c : ascii) : bool :=
  let n := nat_of_ascii c in
  ((9 <=? n) && (n <=? 13)) || (n =? 32) || (n =? 160).

Definition is_newline (c : ascii) : bool := nat_of_ascii c =? 10.

(** [[A-Z]] *)
Definition is_upper_AZ (c : ascii) : bool :=
  let n := nat_of_ascii c in (65 <=? n) && (n <=? 90).

Definition lower_char (c : ascii) : ascii :=
  let n := nat_of_ascii c in
  if ((65 <=? n) && (n <=? 90))
     || ((192 <=? n) && (n <=? 214))
     || ((216 <=? n) && (n <=? 222))
  then ascii_of_nat (n + 32) else c.

(** [s.toLowerCase()] *)
Fixpoint toLowerCase (s : string) : string :=
  match s with
  | EmptyString => EmptyString
  | String c s' => String (lower_char c) (toLowerCase s')
  end.

Fixpoint trimStart (s : string) : string :=
  match s with
  | EmptyString => EmptyString
  | String c s' => if is_space c then trimStart s' else s
  end.

Fixpoint trimEnd (s : string) : string :=
  match s with
  | EmptyString => EmptyString
  | String c s' =>
      match trimEnd s' with
      | EmptyString => if is_space c then EmptyString else String c EmptyString
      | r => String c r
      end
  end.

(** [s.trim()] *)
Definition trim (s : string) : string := trimEnd (trimStart s).

(** [s.includes(sub)] *)
Fixpoint includes (s sub : string) : bool :=
  prefix sub s ||
  match s with
  | EmptyString => false
  | String _ s' => includes s' sub
  end.

(** [s.endsWith(suffix)] *)
Fixpoint endsWith (s suffix : string) : bool :=
  String.eqb s suffix ||
  match s with
  | EmptyString => false
  | String _ s' => endsWith s' suffix
  end.

(** [/[A-Z][A-Z]/.test(s)] *)
Fixpoint hasUpperPair (s : string) : bool :=
  match s with
  | String c1 (String c2 _ as rest) =>
      (is_upper_AZ c1 && is_upper_AZ c2) || hasUpperPair rest
  | _ => false
  end.

(** [s.split(/\s+/)]: [cur] is the piece being read, [in_sep] tells
    that the scan is inside a run of white space. *)
Fixpoint split_ws_go (s cur : string) (in_sep : bool) : list string :=
  match s with
  | EmptyString => [cur]
  | String c s' =>
      if is_space c then
        if in_sep then split_ws_go s' cur true
        else cur :: split_ws_go s' EmptyString true
      else split_ws_go s' (cur ++ String c EmptyString) false
  end.

Definition split_ws (s : string) : list string :=
  split_ws_go s EmptyString false.

(** [s.split(/\n\n+/)]: a separator is a maximal run of two or more
    line feeds; a single line feed belongs to the piece. *)
Fixpoint split_blank_go (s cur : string) (in_sep : bool) : list string :=
  match s with
  | EmptyString => [cur]
  | String c s' =>
      if is_newline c then
        if in_sep then split_blank_go s' cur true
        else
          match s' with
          | String c' _ =>
              if is_newline c' then cur :: split_blank_go s' EmptyString true
              else split_blank_go s' (cur ++ String c EmptyString) false
          | EmptyString => [cur ++ String c EmptyString]
          end
      else split_blank_go s' (cur ++ String c EmptyString) false
  end.

Definition split_blank (s : string) : list string :=
  split_blank_go s EmptyString false.

(** [parts.join(sep)] *)
Fixpoint join (sep : string) (parts : list string) : string :=
  match parts with
  | [] => EmptyString
  | [p] => p
  | p :: rest => p ++ sep ++ join sep rest
  end.

(** Decimal rendering of a non-negative integer, as [String(n)] and
    string concatenation with a number do. *)
Definition ofN (n : N) : string := NilEmpty.string_of_uint (N.to_uint n).
Definition ofNat (n : nat) : string := NilEmpty.string_of_uint (Nat.to_uint n).

(** [path.extname(base)] for a base name: the part from the last dot,
    empty when there is no dot or the only dot starts the name. *)
Fixpoint lastDotSuffix (s : string) : option string :=
  match s with
  | EmptyString => None
  | String c s' =>
      match lastDotSuffix s' with
      | Some e => Some e
      | None => if (c =? ".")%char then Some s else None
      end
  end.

Definition extname (base : string) : string :=
  match base with
  | EmptyString => EmptyString
  | String c rest =>
      match lastDotSuffix rest with
      | Some e => e
      | None => EmptyString
      end
  end.

End JsString.

Import JsString.

(** ** The in-memory document store ([let documentStore = {}]) *)

Module Store.

Record DocumentRecord : Type := mkDocument {
  id : string;
  name : string;
  text : option string;       (* [undefined] when an extractor returned none *)
  uploadDate : N
}.

(** Keys in enumeration order, each with its record. *)
Definition DocumentStore : Type := list (string * DocumentRecord).

Definition empty : DocumentStore := [].

(** [Object.keys(documentStore)] *)
Definition keys (s : DocumentStore) : list string := map fst s.

(** [Object.values(documentStore)] *)
Definition values (s : DocumentStore) : list DocumentRecord := map snd s.

(** [documentStore[k]] *)
Fixpoint get (s : DocumentStore) (k : string) : option DocumentRecord :=
  match s with
  | [] => None
  | (k', d) :: rest => if String.eqb k' k then Some d else get rest k
  end.

(** [documentStore[k] = d]: an existing key keeps its place. *)
Fixpoint set (s : DocumentStore) (k : string) (d : DocumentRecord)
  : DocumentStore :=
  match s with
  | [] => [(k, d)]
  | (k', d') :: rest =>
      if String.eqb k' k then (k, d) :: rest else (k', d') :: set rest k d
  end.

(** [delete documentStore[k]]; an object holds a key at most once (see
    [set_keys_unique]), so one entry goes. *)
Fixpoint delete (s : DocumentStore) (k : string) : DocumentStore :=
  match s with
  | [] => []
  | (k', d') :: rest =>
      if String.eqb k' k then rest else (k', d') :: delete rest k
  end.

End Store.

Import Store.

(** ** Ingestion: [processDocument], the upload handler, the watcher *)

Module Ingest.

(** [Date.now() + '-' + fileName] *)
Definition docId (now : N) (fileName : string) : string :=
  ofN now ++ "-" ++ fileName.

(** Outcome of [extractTextFromPDF] / [extractTextFromWord]: the value
    the extractor library handed back, or a thrown error. *)
Inductive ExtractResult : Type :=
| Extracted (t : option string)
| ExtractionError.

(** The file system and the extractors, as the server consumes them.
    A file of the documents directory is named by its base name. *)
Record FileSystem : Type := mkFileSystem {
  existsSync : string -> bool;
  extractTextFromPDF : string -> ExtractResult;
  extractTextFromWord : string -> ExtractResult
}.

Definition placeholder (fileName : string) : string :=
  "[Empty or unreadable document: " ++ fileName ++ "]".

(** [!text || text.trim() === ''] *)
Definition isBlank (t : option string) : bool :=
  match t with
  | None => true
  | Some s => String.eqb s "" || String.eqb (trim s) ""
  end.

(** The dispatch on the lower-cased extension; [None] for an
    unsupported file type. *)
Definition extractByType (fs : FileSystem) (fileName : string)
  : option ExtractResult :=
  let fileExt := toLowerCase (extname fileName) in
  if String.eqb fileExt ".pdf" then Some (extractTextFromPDF fs fileName)
  else if String.eqb fileExt ".doc" || String.eqb fileExt ".docx"
       then Some (extractTextFromWord fs fileName)
       else None.

Definition processDocument (fs : FileSystem) (fileName : string)
           (now date : N) (store : DocumentStore) : DocumentStore :=
  if negb (existsSync fs fileName) then store
  else
    match extractByType fs fileName with
    | None => store                        (* unsupported file type *)
    | Some ExtractionError => store        (* caught and logged *)
    | Some (Extracted t) =>
        let text :=
          if isBlank t then placeholder fileName
          else match t with Some s => s | None => EmptyString end in
        let docId := docId now fileName in
        Store.set store docId
          (mkDocument docId fileName (Some text) date)
    end.

Inductive Mime : Type := MimePdf | MimeDocx | MimeDoc | MimeOther.

Record UploadedFile : Type := mkUploadedFile {
  originalname : string;
  mimetype : Mime;
  path : string
}.

(** One iteration of the loop of [app.post('/api/upload')]; [None]
    when the extractor throws (the handler then answers 500). *)
Definition uploadOne (fs : FileSystem) (file : UploadedFile)
           (now date : N) (store : DocumentStore) : option DocumentStore :=
  let extraction :=
    match mimetype file with
    | MimePdf => extractTextFromPDF fs (path file)
    | MimeDocx | MimeDoc => extractTextFromWord fs (path file)
    | MimeOther => Extracted (Some EmptyString)
    end in
  match extraction with
  | ExtractionError => None
  | Extracted text =>
      let docId := docId now (originalname file) in
      Some (Store.set store docId
              (mkDocument docId (originalname file) text date))
  end.

(** The whole loop: every file comes with the two clock readings taken
    while it is stored.  The store keeps what was written before a
    failure. *)
Fixpoint upload (fs : FileSystem) (files : list (UploadedFile * N * N))
         (store : DocumentStore) : DocumentStore * nat :=
  match files with
  | [] => (store, 200)
  | (file, now, date) :: rest =>
      match uploadOne fs file now date store with
      | None => (store, 500)
      | Some store' => upload fs rest store'
      end
  end.

Definition supportedName (filename : string) : bool :=
  let l := toLowerCase filename in
  endsWith l ".pdf" || endsWith l ".doc" || endsWith l ".docx".

(** The deletion branch of the [fs.watch] callback:
    [Object.keys(documentStore).find(key => key.includes(filename))],
    then [delete] when a key was found. *)
Definition removeByFileName (store : DocumentStore) (filename : string)
  : DocumentStore :=
  match find (fun key => includes key filename) (keys store) with
  | Some docId =>
      if String.eqb docId "" then store else Store.delete store docId
  | None => store
  end.

Inductive EventType : Type := Rename | Change.

(** The [fs.watch] callback, after its settle delay. *)
Definition onWatchEvent (fs : FileSystem) (eventType : EventType)
           (filename : option string) (now date : N)
           (store : DocumentStore) : DocumentStore :=
  match eventType, filename with
  | Rename, Some filename =>
      if String.eqb filename "" then store
      else if existsSync fs filename && supportedName filename
           then processDocument fs filename now date store
           else if negb (existsSync fs filename)
                then removeByFileName store filename
                else store
  | _, _ => store
  end.

End Ingest.

Import Ingest.

(** ** The chat handler ([app.post('/api/chat')]) *)

Module Chat.

(** *** External services and the log of calls made to them *)

Inductive CompletionFailure : Type :=
| NetworkError          (* [fetch] rejects *)
| NonSuccessStatus      (* [!apiResponse.ok] *)
| MalformedResponse.    (* the body lacks [choices[0].message.content] *)

Inductive CompletionResult : Type :=
| Completed (content : string)
| Failed (why : CompletionFailure).

(** Outcome of [supabase.from('chats').insert(...).select()]: the new
    row's id ([None] when [data[0]] is missing), an [error] field, or
    a thrown exception. *)
Inductive CreateResult : Type :=
| Created (newChatId : option string)
| CreateReturnedError
| CreateThrew.

Record Services : Type := mkServices {
  GROQ_API_KEY : option string;
  complete : string -> string -> CompletionResult;
  createSession : CreateResult;
  (* [false]: the insertion into [chat_history] throws *)
  insertHistory : string -> string -> string -> bool
}.

Inductive Event : Type :=
| CallCompletion (systemMessage userMessage : string)
| CallCreateSession
| CallInsertHistory (chat_id user_message assistant_message : string).

(** A computation with its log of external calls. *)
Definition Eff (A : Type) : Type := (A * list Event)%type.

Definition ret {A : Type} (a : A) : Eff A := (a, []).

Definition bind {A B : Type} (m : Eff A) (k : A -> Eff B) : Eff B :=
  let (a, l1) := m in
  let (b, l2) := k a in
  (b, (l1 ++ l2)%list).

Notation "x <- m ;; k" := (bind m (fun x => k))
  (at level 61, m at next level, right associativity).

Definition callCompletion (srv : Services) (sys usr : string)
  : Eff CompletionResult :=
  (complete srv sys usr, [CallCompletion sys usr]).

Definition callCreateSession (srv : Services) : Eff CreateResult :=
  (createSession srv, [CallCreateSession]).

Definition callInsertHistory (srv : Services) (cid q a : string) : Eff bool :=
  (insertHistory srv cid q a, [CallInsertHistory cid q a]).

Record Response : Type := mkResponse {
  status : nat;
  success : bool;
  answer : string;
  chatId : option string;
  note : option string
}.

Definition reply (st : nat) (ok : bool) (a : string) : Response :=
  mkResponse st ok a None None.

(** *** Fixed answers *)

Definition NO_DOCUMENTS : string :=
  "No documents have been uploaded yet. Please upload some documents first.".

Definition notFoundAnswer (target : string) : string :=
  "I couldn't find any document matching " ++ dq ++ target ++ dq
  ++ ". Please check the document name and try again.".

Definition API_CONFIGURATION_ERROR : string :=
  "API configuration error. Please contact support.".

Definition REQUEST_ERROR : string :=
  "Sorry, I encountered an error processing your request. Please try again.".

Definition NO_MATCHING_INFORMATION : string :=
  "I couldn't find information in the documents that directly matches your query. Please try rephrasing your question or ask about a different topic covered in the documents.".

Definition SEARCH_ERROR : string :=
  "I encountered an error searching through the documents. Please try a simpler question or check that your documents contain relevant information.".

Definition GENERATED_NOTE : string :=
  nl ++ nl ++ "This response was generated using Groq's AI based on information from your documents.".

(** *** Mention parsing: [/@([^\s]+)/] *)

(** The longest run of non-white-space at the head of [s], and the rest. *)
Fixpoint takeToken (s : string) : string * string :=
  match s with
  | EmptyString => (EmptyString, EmptyString)
  | String c s' =>
      if is_space c then (EmptyString, s)
      else let (t, r) := takeToken s' in (String c t, r)
  end.

(** [message.match(documentMentionRegex)]: the leftmost match, as the
    text before it, the captured group and the text after it. *)
Fixpoint mentionMatch (s : string) : option (string * string * string) :=
  match s with
  | EmptyString => None
  | String c s' =>
      let later :=
        match mentionMatch s' with
        | Some (pre, tok, post) => Some (String c pre, tok, post)
        | None => None
        end in
      if (c =? "@")%char then
        match takeToken s' with
        | (EmptyString, _) => later
        | (tok, post) => Some (EmptyString, tok, post)
        end
      else later
  end.

(** [targetDocumentName] and [cleanedMessage]. *)
Definition parseMention (message : string) : option string * string :=
  match mentionMatch message with
  | Some (pre, tok, post) => (Some tok, trim (pre ++ post))
  | None => (None, message)
  end.

(** *** Context assembly *)

Definition matchingDocIds (store : DocumentStore) (target : string)
  : list string :=
  filter (fun docId =>
            match Store.get store docId with
            | Some d => includes (toLowerCase (name d)) (toLowerCase target)
            | None => false
            end)
         (keys store).

(** [Object.values(documentStore).map(doc => doc.text).join('\n\n')];
    [join] renders [undefined] as the empty string. *)
Definition allDocumentsContext (store : DocumentStore) : string :=
  join (nl ++ nl)
       (map (fun doc => match text doc with Some t => t | None => EmptyString end)
            (values store)).

(** The value of [documentContext]; [None] is [undefined]. *)
Definition documentContext (store : DocumentStore) (target : option string)
  : option string :=
  match target with
  | Some targetDocumentName =>
      match matchingDocIds store targetDocumentName with
      | targetDocId :: _ =>
          match Store.get store targetDocId with
          | Some d => text d
          | None => None
          end
      | [] => Some (allDocumentsContext store)
      end
  | None => Some (allDocumentsContext store)
  end.

(** *** The completion attempt *)

Definition systemMessage : string :=
  "You are a helpful assistant that answers questions based on document content. Your task is to provide clear, accurate responses based solely on the information in the provided documents.".

(** The user message is a template literal: a fixed head, the first
    1500 characters of the context, and a tail that carries the
    question (the trailing remark of the source line is inside the
    literal). *)
Definition userMessageHead : string :=
  "I have the following document content:" ++ nl.

Definition userMessageTail (cleanedMessage : string) : string :=
  " //User Role: Provides truncated document context (1,500 chars) and the question."
  ++ nl ++ nl
  ++ "My question is: " ++ cleanedMessage ++ nl ++ nl
  ++ "Please answer based only on the information in these documents.".

Definition userMessage (documentContext cleanedMessage : string) : string :=
  userMessageHead
  ++ substring 0 1500 documentContext
  ++ userMessageTail cleanedMessage.

(** *** The fallback search *)

Record RankedPassage : Type := mkPassage {
  p_text : string;
  p_score : Q;
  p_source : string
}.

(** [cleanedMessage.toLowerCase().split(/\s+/).filter(word => word.length > 3)] *)
Definition keywordsOf (cleanedMessage : string) : list string :=
  filter (fun word => 3 <? String.length word)
         (split_ws (toLowerCase cleanedMessage)).

(** [doc.text.split(/\n\n+/).map(p => p.trim()).filter(p => p.length > 30)] *)
Definition paragraphsOf (docText : string) : list string :=
  filter (fun p => 30 <? String.length p)
         (map trim (split_blank docText)).

Definition keywordMatches (keywords : list string) (paragraph : string)
  : list string :=
  let paragraphLower := toLowerCase paragraph in
  filter (fun keyword => includes paragraphLower keyword) keywords.

Definition looksLikeHeading (paragraph : string) : bool :=
  (String.length paragraph <? 200) && (20 <? String.length paragraph)
  && (includes paragraph ":" || hasUpperPair paragraph).

(** The body of [paragraphs.forEach]: the score pushed for the
    paragraph, or nothing when no keyword matches. *)
Definition scoreParagraph (keywords : list string) (paragraph : string)
  : option Q :=
  let matches := keywordMatches keywords paragraph in
  let matchScore := List.length matches in
  if 0 <? matchScore then
    let relevanceScore := inject_Z (Z.of_nat matchScore) in
    let relevanceScore :=
      if 1 <? List.length matches
      then (relevanceScore
            + inject_Z (2 ^ Z.of_nat (List.length matches - 1)))%Q
      else relevanceScore in
    let relevanceScore :=
      if 1 <? List.length matches
      then (relevanceScore
            + (500 # Pos.of_succ_nat (String.length paragraph)))%Q
      else relevanceScore in
    let relevanceScore :=
      if looksLikeHeading paragraph
      then (relevanceScore + inject_Z 2)%Q
      else relevanceScore in
    Some relevanceScore
  else None.

Fixpoint scoreParagraphs (keywords : list string) (source : string)
         (paragraphs : list string) : list RankedPassage :=
  match paragraphs with
  | [] => []
  | paragraph :: rest =>
      match scoreParagraph keywords paragraph with
      | Some sc =>
          mkPassage paragraph sc source :: scoreParagraphs keywords source rest
      | None => scoreParagraphs keywords source rest
      end
  end.

(** [Object.values(documentStore).forEach(doc => ...)]: [None] when
    [doc.text.split] throws because a text is [undefined]. *)
Fixpoint matchingParagraphs (keywords : list string)
         (docs : list DocumentRecord) : option (list RankedPassage) :=
  match docs with
  | [] => Some []
  | doc :: rest =>
      match text doc with
      | None => None
      | Some t =>
          match matchingParagraphs keywords rest with
          | None => None
          | Some found =>
              Some (scoreParagraphs keywords (name doc) (paragraphsOf t)
                    ++ found)%list
          end
      end
  end.

(** [matchingParagraphs.sort((a, b) => b.score - a.score)]: a stable
    sort, highest score first. *)
Fixpoint insertByScore (x : RankedPassage) (sorted : list RankedPassage)
  : list RankedPassage :=
  match sorted with
  | [] => [x]
  | y :: rest =>
      if Qle_bool (p_score y) (p_score x) then x :: y :: rest
      else y :: insertByScore x rest
  end.

Definition sortByScore (l : list RankedPassage) : list RankedPassage :=
  fold_right insertByScore [] l.

(** [[...new Set(names)]] *)
Fixpoint uniqueSources (names : list string) : list string :=
  match names with
  | [] => []
  | n :: rest =>
      n :: filter (fun m => negb (String.eqb m n)) (uniqueSources rest)
  end.

Fixpoint resultLines (index : nat) (results : list RankedPassage) : string :=
  match results with
  | [] => EmptyString
  | result :: rest =>
      ofNat (index + 1) ++ ". From " ++ dq ++ p_source result ++ dq ++ ": "
      ++ trim (p_text result) ++ nl ++ nl
      ++ resultLines (index + 1) rest
  end.

Definition composeAnswer (cleanedMessage : string)
           (topResults : list RankedPassage) : string :=
  "Based on your question about " ++ dq ++ cleanedMessage ++ dq
  ++ ", I found these relevant sections:" ++ nl ++ nl
  ++ resultLines 0 topResults
  ++ "Information was found in the following document(s): "
  ++ join ", " (uniqueSources (map p_source topResults)) ++ "." ++ nl ++ nl
  ++ "If you need more specific details, please ask a more focused question.".

(** The [catch (groqError)] block. *)
Definition fallbackSearch (store : DocumentStore) (cleanedMessage : string)
  : string :=
  let keywords := keywordsOf cleanedMessage in
  match matchingParagraphs keywords (values store) with
  | None => SEARCH_ERROR
  | Some found =>
      let topResults := firstn 5 (sortByScore found) in
      if 0 <? List.length topResults
      then composeAnswer cleanedMessage topResults
      else NO_MATCHING_INFORMATION
  end.

(** *** The stages of the handler *)

(** The mention check: either a reply that ends the request, or the
    target and the cleaned message. *)
Definition mentionStage (store : DocumentStore) (message : string)
  : Response + (option string * string) :=
  let (targetDocumentName, cleanedMessage) := parseMention message in
  match targetDocumentName with
  | Some target =>
      if List.length (matchingDocIds store target) =? 0
      then inl (reply 400 false (notFoundAnswer target))
      else inr (targetDocumentName, cleanedMessage)
  | None => inr (targetDocumentName, cleanedMessage)
  end.

Definition keyConfigured (srv : Services) : bool :=
  match GROQ_API_KEY srv with
  | Some k => negb (String.eqb k "")
  | None => false
  end.

(** The completion attempt and, when it fails, the fallback search. *)
Definition answerStage (srv : Services) (store : DocumentStore)
           (context cleanedMessage : string) : Eff string :=
  r <- callCompletion srv systemMessage (userMessage context cleanedMessage) ;;
  match r with
  | Completed content => ret (trim content ++ GENERATED_NOTE)
  | Failed _ => ret (fallbackSearch store cleanedMessage)
  end.

(** Recording the exchange; every path answers 200 with [response]. *)
Definition persist (srv : Services) (chatId : option string)
           (cleanedMessage response : string) : Eff Response :=
  let fresh :=
    r <- callCreateSession srv ;;
    match r with
    | Created (Some newChatId) =>
        _ <- callInsertHistory srv newChatId cleanedMessage response ;;
        ret (mkResponse 200 true response (Some newChatId) None)
    | Created None | CreateReturnedError | CreateThrew =>
        ret (mkResponse 200 true response None None)
    end in
  match chatId with
  | Some cid =>
      if String.eqb cid "" then fresh
      else
        _ <- callInsertHistory srv cid cleanedMessage response ;;
        ret (mkResponse 200 true response (Some cid) None)
  | None => fresh
  end.

Definition chat (srv : Services) (store : DocumentStore)
           (message : string) (chatId : option string) : Eff Response :=
  if List.length (keys store) =? 0
  then ret (reply 400 false NO_DOCUMENTS)
  else
    match mentionStage store message with
    | inl r => ret r
    | inr (targetDocumentName, cleanedMessage) =>
        match documentContext store targetDocumentName with
        | None =>
            (* [documentContext.length] throws; the outer handler replies *)
            ret (reply 500 false REQUEST_ERROR)
        | Some context =>
            if String.eqb context "" || String.eqb (trim context) ""
            then ret (reply 400 false NO_DOCUMENTS)
            else if negb (keyConfigured srv)
                 then ret (reply 500 false API_CONFIGURATION_ERROR)
                 else
                   response <- answerStage srv store context cleanedMessage ;;
                   persist srv chatId cleanedMessage response
        end
    end.

End Chat.

Import Chat.

(** ** The vocabulary of the specification *)

Module Spec.

(** A token is a run of characters without white space. *)
Fixpoint noSpace (s : string) : bool :=
  match s with
  | EmptyString => true
  | String c s' => negb (is_space c) && noSpace s'
  end.

(** What follows a token: the end of the question or white space. *)
Definition endsToken (post : string) : bool :=
  match post with
  | EmptyString => true
  | String c _ => is_space c
  end.

(** No "@token" starts inside [pre], where [pre] is directly followed
    by the '@' of a token: every '@' of [pre] is followed by white
    space. *)
Fixpoint mentionFree (pre : string) : bool :=
  match pre with
  | EmptyString => true
  | String c rest =>
      (if (c =? "@")%char then
         match rest with
         | String c' _ => is_space c'
         | EmptyString => false
         end
       else true)
      && mentionFree rest
  end.

(** The store invariant of the ingestion paths: every key was built
    by [docId] from the name of its record. *)
Definition keyed (store : DocumentStore) : Prop :=
  forall k d, In (k, d) store -> exists now, k = docId now (name d).

(** [removeByFileName] in the words of the specification: the record
    ingested last among those of the file goes, the others stay. *)
Fixpoint removeMostRecent (store : DocumentStore) (fileName : string)
  : DocumentStore :=
  match store with
  | [] => []
  | (k, d) :: rest =>
      if existsb (fun e => String.eqb (name (snd e)) fileName) rest
      then (k, d) :: removeMostRecent rest fileName
      else if String.eqb (name d) fileName then rest else (k, d) :: rest
  end.

(** The heading test: strictly between 20 and 200 characters, with a
    colon or two consecutive capital letters. *)
Definition headingLike (paragraph : string) : bool :=
  (20 <? String.length paragraph) && (String.length paragraph <? 200)
  && (includes paragraph ":" || hasUpperPair paragraph).

(** The score as a formula of the match count and the paragraph. *)
Definition formulaScore (matchCount : nat) (paragraph : string) : Q :=
  (inject_Z (Z.of_nat matchCount)
   + (if 1 <? matchCount
      then inject_Z (2 ^ Z.of_nat (matchCount - 1)) else 0)
   + (if 1 <? matchCount
      then inject_Z 500 / inject_Z (Z.of_nat (String.length paragraph + 1))
      else 0)
   + (if headingLike paragraph then inject_Z 2 else 0))%Q.

(** The match count over the distinct keywords. *)
Definition distinctMatchCount (keywords : list string) (paragraph : string)
  : nat :=
  List.length
    (filter (fun keyword => includes (toLowerCase paragraph) keyword)
            (nodup string_dec keywords)).

End Spec.

(** ** Concrete inputs used by the examples below *)

Module Examples.

(** A completion service that is unreachable, and a session store
    that is down. *)
Definition failingServices : Services :=
  mkServices (Some "gsk_test") (fun _ _ => Failed NetworkError)
             CreateThrew (fun _ _ _ => true).

(** A file system where every file exists and every extractor hands
    back white space only. *)
Definition blankFiles : FileSystem :=
  mkFileSystem (fun _ => true)
               (fun _ => Extracted (Some "   "))
               (fun _ => Extracted (Some "   ")).

(** A file system where every file exists and extracts to a line of
    text. *)
Definition plainFiles : FileSystem :=
  mkFileSystem (fun _ => true)
               (fun _ => Extracted (Some "quarterly figures"))
               (fun _ => Extracted (Some "quarterly figures")).

(** The same file ingested twice, one millisecond apart. *)
Definition twoVersions : DocumentStore :=
  processDocument plainFiles "a.pdf" 2 2
    (processDocument plainFiles "a.pdf" 1 1 Store.empty).

(** Two files, the name of the second a suffix of the first's. *)
Definition twoFiles : DocumentStore :=
  processDocument plainFiles "a.pdf" 2 2
    (processDocument plainFiles "ba.pdf" 1 1 Store.empty).

(** A one-paragraph document about data. *)
Definition dataParagraph : string :=
  "the data is stored in memory for now ok".

Definition dataDocument : DocumentRecord :=
  mkDocument "1-a.pdf" "a.pdf" (Some dataParagraph) 1.

(** Three documents: two whose names contain "report", one that does
    not. *)
Definition reportText : string :=
  "Latency: the delay before a transfer of data begins.".

Definition reportV2Text : string :=
  "The second report covers throughput of the pipeline only, nothing else.".

Definition notesText : string :=
  "Meeting notes: latency and throughput tradeoffs were discussed at length.".

Definition officeFiles : FileSystem :=
  mkFileSystem (fun _ => true)
               (fun f => if String.eqb f "Report.pdf"
                         then Extracted (Some reportText)
                         else Extracted (Some notesText))
               (fun _ => Extracted (Some reportV2Text)).

Definition reports : DocumentStore :=
  processDocument officeFiles "notes.pdf" 3 3
    (processDocument officeFiles "report_v2.docx" 2 2
       (processDocument officeFiles "Report.pdf" 1 1 Store.empty)).

(** A document whose only matching paragraph starts after 1600
    characters. *)
Fixpoint filler (n : nat) : string :=
  match n with
  | O => EmptyString
  | S n' => String "x" (filler n')
  end.

Definition lastParagraph : string :=
  "latency numbers are listed in this final paragraph".

Definition longText : string := filler 1600 ++ nl ++ nl ++ lastParagraph.

Definition longStore : DocumentStore :=
  [("1-long.pdf", mkDocument "1-long.pdf" "long.pdf" (Some longText) 1)].

End Examples.

(** ** The other routes and the start-up scan *)

Module Routes.

(** The callback of [fs.readdir(documentsDir, ...)]: [None] is a read
    error; every listed file comes with the two clock readings taken
    if it is stored. *)
Fixpoint scanFiles (fs : FileSystem) (files : list (string * N * N))
         (store : DocumentStore) : DocumentStore :=
  match files with
  | [] => store
  | (file, now, date) :: rest =>
      if supportedName file
      then scanFiles fs rest (processDocument fs file now date store)
      else scanFiles fs rest store
  end.

Definition scanDirectory (fs : FileSystem)
           (listing : option (list (string * N * N)))
           (store : DocumentStore) : DocumentStore :=
  match listing with
  | None => store
  | Some files => scanFiles fs files store
  end.

Inductive DocType : Type := Pdf | Word.

Record DocumentInfo : Type := mkDocumentInfo {
  info_id : string;
  info_name : string;
  info_type : DocType;
  info_uploadDate : N
}.

(** [app.get('/api/documents')] *)
Definition listDocuments (store : DocumentStore) : list DocumentInfo :=
  map (fun doc =>
         mkDocumentInfo (id doc) (name doc)
           (if endsWith (toLowerCase (name doc)) ".pdf" then Pdf else Word)
           (uploadDate doc))
      (values store).

Record StoreStatus : Type := mkStoreStatus {
  totalDocuments : nat;
  pdfDocuments : nat;
  wordDocuments : nat;
  totalTextLength : nat
}.

(** The [documentStoreStatus] object of [app.get('/api/diagnostics')],
    without its average. *)
Definition documentStoreStatus (store : DocumentStore) : StoreStatus :=
  let pdfCount :=
    List.length
      (filter (fun doc => endsWith (toLowerCase (name doc)) ".pdf")
              (values store)) in
  let wordCount :=
    List.length
      (filter (fun doc => endsWith (toLowerCase (name doc)) ".doc"
                          || endsWith (toLowerCase (name doc)) ".docx")
              (values store)) in
  let totalTextLength :=
    fold_left (fun sum doc =>
                 sum + match text doc with
                       | Some t => String.length t
                       | None => 0
                       end)
              (values store) 0 in
  mkStoreStatus (List.length (keys store)) pdfCount wordCount totalTextLength.

(** The title of a chat session in [app.get('/api/chats')]:
    [user_message.substring(0, 30) + (user_message.length > 30 ? '...' : '')] *)
Definition chatTitle (user_message : string) : string :=
  substring 0 30 user_message
  ++ (if 30 <? String.length user_message then "..." else "").

End Routes.

Import Routes.

(** ** Predicates used to state the further properties *)

Module Inv.

(** Only white space. *)
Fixpoint allSpace (s : string) : bool :=
  match s with
  | EmptyString => true
  | String c s' => is_space c && allSpace s'
  end.

(** What the ingestion paths keep true of the store: keys are pairwise
    distinct, and every record sits under its own id, which was built
    by [docId] from its name. *)
Definition consistent (store : DocumentStore) : Prop :=
  NoDup (keys store)
  /\ forall k d, In (k, d) store ->
                 id d = k /\ exists now, k = docId now (name d).

(** The record matches the mention target. *)
Definition matchesTarget (target : string) (d : DocumentRecord) : bool :=
  includes (toLowerCase (name d)) (toLowerCase target).

(** The extractor chosen for an uploaded file throws. *)
Definition uploadThrows (fs : FileSystem) (file : UploadedFile) : bool :=
  match mimetype file with
  | MimePdf =>
      match extractTextFromPDF fs (path file) with
      | ExtractionError => true
      | Extracted _ => false
      end
  | MimeDocx | MimeDoc =>
      match extractTextFromWord fs (path file) with
      | ExtractionError => true
      | Extracted _ => false
      end
  | MimeOther => false
  end.

(** Every stored record has a text that is present and not blank. *)
Definition readable (store : DocumentStore) : Prop :=
  forall d, In d (values store) -> exists s, text d = Some s /\ trim s <> "".

(** The last character of a string. *)
Fixpoint lastChar (s : string) : option ascii :=
  match s with
  | EmptyString => None
  | String c r =>
      match lastChar r with
      | Some x => Some x
      | None => Some c
      end
  end.

Definition isPdfEntry (i : DocumentInfo) : bool :=
  match info_type i with
  | Pdf => true
  | Word => false
  end.

(** Descending by score. *)
Definition scoreGe (a b : RankedPassage) : Prop :=
  (p_score b <= p_score a)%Q.

End Inv.

(** * Facts about the string primitives *)

Section StringFacts.

Lemma append_nil_r (s : string) : s ++ "" = s.
Proof. induction s as [|c s IH]; simpl; [reflexivity | now rewrite IH]. Qed.

Lemma append_assoc (a b c : string) : (a ++ b) ++ c = a ++ (b ++ c).
Proof. induction a as [|x a IH]; simpl; [reflexivity | now rewrite IH]. Qed.

Lemma length_append (a b : string) :
  String.length (a ++ b) = String.length a + String.length b.
Proof. induction a as [|x a IH]; simpl; [reflexivity | now rewrite IH]. Qed.

Lemma prefix_refl (s : string) : prefix s s = true.
Proof.
  induction s as [|c s IH]; simpl; [reflexivity|].
  destruct (ascii_dec c c); [exact IH | congruence].
Qed.

Lemma prefix_append (s t : string) : prefix s (s ++ t) = true.
Proof.
  induction s as [|c s IH]; simpl.
  - destruct t; reflexivity.
  - destruct (ascii_dec c c); [exact IH | congruence].
Qed.

Lemma includes_self (s : string) : includes s s = true.
Proof.
  destruct s as [|c s]; [reflexivity|].
  cbn [includes]. now rewrite prefix_refl.
Qed.

(** A string includes each of its suffixes. *)
Lemma includes_suffix (a f : string) : includes (a ++ f) f = true.
Proof.
  induction a as [|c a IH].
  - apply includes_self.
  - change (String c a ++ f) with (String c (a ++ f)).
    cbn [includes]. rewrite IH. apply orb_true_r.
Qed.

Lemma substring_0_length (n : nat) (s : string) :
  String.length (substring 0 n s) = Nat.min n (String.length s).
Proof.
  revert s; induction n as [|n IH]; intros [|c s]; simpl; auto.
Qed.

(** [s.substring(0, n)] is the head of [s]. *)
Lemma substring_0_prefix (n : nat) (s : string) :
  exists rest, s = substring 0 n s ++ rest.
Proof.
  revert s; induction n as [|n IH]; intros [|c s]; simpl.
  - now exists "".
  - now exists (String c s).
  - now exists "".
  - destruct (IH s) as [r Hr]. exists r. now rewrite <- Hr.
Qed.

End StringFacts.

(** * Facts about the store *)

Section StoreFacts.

Lemma get_set_same (s : DocumentStore) (k : string) (d : DocumentRecord) :
  Store.get (Store.set s k d) k = Some d.
Proof.
  induction s as [|[k' d'] s IH]; simpl.
  - now rewrite String.eqb_refl.
  - destruct (String.eqb k' k) eqn:E; simpl.
    + now rewrite String.eqb_refl.
    + now rewrite E.
Qed.

Lemma get_In (s : DocumentStore) (k : string) (d : DocumentRecord) :
  Store.get s k = Some d -> In (k, d) s.
Proof.
  induction s as [|[k' d'] s IH]; simpl; [discriminate|].
  destruct (String.eqb_spec k' k) as [->|_].
  - intros [= ->]. now left.
  - intros H. right. now apply IH.
Qed.

Lemma get_In_values (s : DocumentStore) (k : string) (d : DocumentRecord) :
  Store.get s k = Some d -> In d (values s).
Proof.
  intros H. apply get_In in H.
  unfold values. change d with (snd (k, d)). now apply in_map.
Qed.

Lemma In_keys_set (s : DocumentStore) (k : string) (d : DocumentRecord)
      (x : string) :
  In x (keys (Store.set s k d)) -> x = k \/ In x (keys s).
Proof.
  induction s as [|[k0 d0] s IH]; simpl.
  - intros [<-|[]]. now left.
  - destruct (String.eqb_spec k0 k) as [->|_]; simpl.
    + intros [<-|H]; [now left | right; now right].
    + intros [<-|H]; [right; now left|].
      destruct (IH H) as [->|Hin]; [now left | right; now right].
Qed.

(** Assignment keeps the keys of the object pairwise distinct. *)
Lemma set_keys_unique (s : DocumentStore) (k : string) (d : DocumentRecord) :
  NoDup (keys s) -> NoDup (keys (Store.set s k d)).
Proof.
  induction s as [|[k0 d0] s IH]; simpl; intros Hnd.
  - constructor; [intros [] | constructor].
  - inversion Hnd as [|? ? Hnotin Hnd']; subst.
    destruct (String.eqb_spec k0 k) as [->|Hne]; simpl.
    + now constructor.
    + constructor; [|now apply IH].
      intros Hin. apply In_keys_set in Hin as [->|Hin]; [now elim Hne|].
      now elim Hnotin.
Qed.

End StoreFacts.

(** * The empty-store check *)

(** C6: with an empty document store the handler answers at once with
    the no-documents message (status 400), whatever the question, and
    its log of external calls is empty: neither the completion service
    nor any other collaborator was invoked. *)
Theorem empty_store_no_documents :
  forall (srv : Services) (message : string) (chatId : option string),
    chat srv Store.empty message chatId = (reply 400 false NO_DOCUMENTS, []).
Proof. intros; reflexivity. Qed.

(** * Mentions that match no document *)

Section MentionResolution.

Variable store : DocumentStore.
Variable target : string.

Let matchesTarget (d : DocumentRecord) : bool :=
  includes (toLowerCase (name d)) (toLowerCase target).

Lemma matchingDocIds_none :
  (forall d, In d (values store) -> matchesTarget d = false) ->
  matchingDocIds store target = [].
Proof.
  intros Hnone. unfold matchingDocIds.
  induction (keys store) as [|k ks IH]; simpl; [reflexivity|].
  destruct (Store.get store k) as [d|] eqn:Hget; [|exact IH].
  apply get_In_values in Hget. apply Hnone in Hget.
  unfold matchesTarget in Hget. now rewrite Hget.
Qed.

End MentionResolution.

(** C2 (as amended): when the store is not empty and the question
    carries an @mention whose target is a case-insensitive substring of
    no stored document name, the handler answers with the not-found
    message for that target (status 400) and its log of external calls
    is empty: the completion service is not called and no context, in
    particular not the full-corpus one, is assembled. *)
Theorem mention_without_match_not_found :
  forall (srv : Services) (store : DocumentStore) (message : string)
         (chatId : option string) (target cleaned : string),
    store <> Store.empty ->
    parseMention message = (Some target, cleaned) ->
    (forall d, In d (values store) ->
               includes (toLowerCase (name d)) (toLowerCase target) = false) ->
    chat srv store message chatId
    = (reply 400 false (notFoundAnswer target), []).
Proof.
  intros srv store message chatId target cleaned Hne Hparse Hnone.
  unfold chat.
  destruct store as [|kd store']; [now elim Hne|].
  cbn [keys map List.length Nat.eqb].
  unfold mentionStage. rewrite Hparse.
  now rewrite (matchingDocIds_none _ _ Hnone).
Qed.

Lemma mention_without_match_not_found_witness :
  [("1-a.pdf", mkDocument "1-a.pdf" "a.pdf" (Some "text") 1)] <> Store.empty
  /\ parseMention "@zzz hi" = (Some "zzz", "hi")
  /\ chat Examples.failingServices
          [("1-a.pdf", mkDocument "1-a.pdf" "a.pdf" (Some "text") 1)]
          "@zzz hi" None
     = (reply 400 false (notFoundAnswer "zzz"), []).
Proof.
  split; [discriminate|]. split; [reflexivity|].
  apply (mention_without_match_not_found Examples.failingServices
           [("1-a.pdf", mkDocument "1-a.pdf" "a.pdf" (Some "text") 1)]
           "@zzz hi" None "zzz" "hi").
  - discriminate.
  - reflexivity.
  - intros d [<-|[]]. reflexivity.
Defined.

(** C2 as stated fails on the empty store: the question mentions a
    target that matches no stored name (there is none), and the answer
    is the no-documents message, not the not-found one. *)
Lemma mention_on_empty_store_counterexample :
  parseMention "@x hi" = (Some "x", "hi")
  /\ (forall d, In d (values Store.empty) ->
                includes (toLowerCase (name d)) (toLowerCase "x") = false)
  /\ chat Examples.failingServices Store.empty "@x hi" None
     = (reply 400 false NO_DOCUMENTS, [])
  /\ answer (reply 400 false NO_DOCUMENTS) <> notFoundAnswer "x".
Proof.
  split; [reflexivity|]. split; [intros d []|].
  split; [reflexivity|]. discriminate.
Qed.

(** * Empty extraction results *)

(** C9: when [processDocument] reaches a file that exists, has a
    supported extension and whose extractor yields nothing (an absent
    value, the empty string or white space only), the record it stores
    under the new id carries the placeholder text, never an absent
    one, and is enumerated by the store like any other document. *)
Theorem empty_extraction_stored_as_placeholder :
  forall (fs : FileSystem) (fileName : string) (now date : N)
         (store : DocumentStore) (t : option string),
    existsSync fs fileName = true ->
    extractByType fs fileName = Some (Extracted t) ->
    isBlank t = true ->
    exists doc,
      Store.get (processDocument fs fileName now date store)
                (docId now fileName) = Some doc
      /\ In doc (values (processDocument fs fileName now date store))
      /\ name doc = fileName
      /\ text doc = Some (placeholder fileName).
Proof.
  intros fs fileName now date store t Hex Hty Hblank.
  unfold processDocument. rewrite Hex, Hty, Hblank. cbn [negb].
  eexists. split; [apply get_set_same|].
  split; [|split; reflexivity].
  eapply get_In_values, get_set_same.
Qed.

Lemma empty_extraction_stored_as_placeholder_witness :
  existsSync Examples.blankFiles "scan.pdf" = true
  /\ extractByType Examples.blankFiles "scan.pdf"
     = Some (Extracted (Some "   "))
  /\ isBlank (Some "   ") = true
  /\ exists doc,
      Store.get (processDocument Examples.blankFiles "scan.pdf" 7 7 Store.empty)
                (docId 7 "scan.pdf") = Some doc
      /\ In doc (values (processDocument Examples.blankFiles "scan.pdf" 7 7
                                         Store.empty))
      /\ name doc = "scan.pdf"
      /\ text doc = Some (placeholder "scan.pdf").
Proof.
  split; [reflexivity|]. split; [reflexivity|]. split; [reflexivity|].
  apply (empty_extraction_stored_as_placeholder
           Examples.blankFiles "scan.pdf" 7 7 Store.empty (Some "   "));
    reflexivity.
Defined.

(** * Mention parsing *)

Section MentionParsing.

Import Spec.

Lemma takeToken_spec (s : string) :
  forall t r, takeToken s = (t, r) ->
              s = t ++ r /\ noSpace t = true /\ endsToken r = true.
Proof.
  induction s as [|c s IH]; simpl; intros t r H.
  - now inversion H.
  - destruct (is_space c) eqn:Hc.
    + inversion H; subst. simpl. now rewrite Hc.
    + destruct (takeToken s) as [t' r'].
      inversion H; subst.
      destruct (IH t' r eq_refl) as (-> & Ht & Hr).
      simpl. now rewrite Hc, Ht.
Qed.

Lemma takeToken_append (t r : string) :
  noSpace t = true -> endsToken r = true -> takeToken (t ++ r) = (t, r).
Proof.
  induction t as [|c t IH]; simpl; intros Ht Hr.
  - destruct r as [|c r]; simpl in *; [reflexivity | now rewrite Hr].
  - apply andb_prop in Ht as [Hc Ht].
    apply negb_true_iff in Hc. rewrite Hc.
    now rewrite (IH Ht Hr).
Qed.

Lemma at_not_space : is_space "@"%char = false.
Proof. reflexivity. Qed.

(** The match found by the code is the first "@token" of the message. *)
Lemma mentionMatch_sound (m : string) :
  forall pre tok post,
    mentionMatch m = Some (pre, tok, post) ->
    m = pre ++ "@" ++ tok ++ post
    /\ tok <> "" /\ noSpace tok = true /\ endsToken post = true
    /\ mentionFree pre = true.
Proof.
  induction m as [|c m IH]; intros pre tok post H; [discriminate|].
  cbn [mentionMatch] in H.
  assert (Hlater :
            match mentionMatch m with
            | Some (pre0, tok0, post0) => Some (String c pre0, tok0, post0)
            | None => None
            end = Some (pre, tok, post) ->
            exists pre', pre = String c pre'
                         /\ mentionMatch m = Some (pre', tok, post)).
  { destruct (mentionMatch m) as [[[p0 t0] q0]|]; [|discriminate].
    intros [= <- <- <-]. now exists p0. }
  destruct (Ascii.eqb_spec c "@") as [->|Hc].
  - destruct (takeToken m) as [t r] eqn:Htok.
    destruct (takeToken_spec _ _ _ Htok) as (Hm & Ht & Hr).
    destruct t as [|c' t'].
    + destruct (Hlater H) as (pre' & -> & Hm').
      destruct (IH _ _ _ Hm') as (E & Hne & Hns & Hend & Hfree).
      repeat split; try assumption.
      * simpl. now rewrite E.
      * cbn [mentionFree]. rewrite Ascii.eqb_refl, Hfree, andb_true_r.
        simpl in Hm. subst r.
        destruct pre' as [|c' pre'']; simpl in E; rewrite E in Hr;
          simpl in Hr; [|exact Hr].
        now rewrite at_not_space in Hr.
    + inversion H; subst. repeat split; try assumption. discriminate.
  - destruct (Hlater H) as (pre' & -> & Hm').
    destruct (IH _ _ _ Hm') as (E & Hne & Hns & Hend & Hfree).
    repeat split; try assumption.
    + simpl. now rewrite E.
    + cbn [mentionFree]. apply Ascii.eqb_neq in Hc. now rewrite Hc, Hfree.
Qed.

(** Conversely the code finds the first "@token". *)
Lemma mentionMatch_complete (pre tok post : string) :
  tok <> "" -> noSpace tok = true -> endsToken post = true ->
  mentionFree pre = true ->
  mentionMatch (pre ++ "@" ++ tok ++ post) = Some (pre, tok, post).
Proof.
  intros Hne Hns Hend.
  induction pre as [|c pre IH]; intros Hfree.
  - simpl. rewrite (takeToken_append _ _ Hns Hend).
    destruct tok; [now elim Hne | reflexivity].
  - cbn [mentionFree] in Hfree. apply andb_prop in Hfree as [Hhead Hfree].
    change (String c pre ++ "@" ++ tok ++ post)
      with (String c (pre ++ "@" ++ tok ++ post)).
    cbn [mentionMatch]. rewrite (IH Hfree).
    destruct (Ascii.eqb_spec c "@") as [->|_]; [|reflexivity].
    destruct pre as [|c' pre']; [discriminate|].
    simpl. now rewrite Hhead.
Qed.

Lemma mentionMatch_no_at (m : string) :
  includes m "@" = false -> mentionMatch m = None.
Proof.
  induction m as [|c m IH]; [reflexivity|].
  cbn [includes]. intros H. apply orb_false_elim in H as [Hp Hi].
  cbn [mentionMatch]. rewrite (IH Hi).
  destruct (Ascii.eqb_spec c "@") as [->|_]; [|reflexivity].
  simpl in Hp. destruct m; discriminate.
Qed.

End MentionParsing.

(** C8: if the question reads [pre ++ "@" ++ tok ++ post] where [tok] is
    a non-empty run without white space that ends at white space or at
    the end of the question, and no "@token" starts earlier, then the
    target is [tok] and the cleaned message is the question with that
    "@tok" removed, trimmed; a question without '@' has no target and
    is its own cleaned message; and every question falls under the
    first case or comes back unchanged with no target. *)
Theorem parseMention_first_token :
  (forall pre tok post : string,
      tok <> "" -> Spec.noSpace tok = true -> Spec.endsToken post = true ->
      Spec.mentionFree pre = true ->
      parseMention (pre ++ "@" ++ tok ++ post)
      = (Some tok, trim (pre ++ post)))
  /\ (forall message : string,
         includes message "@" = false ->
         parseMention message = (None, message))
  /\ (forall message : string,
         (exists pre tok post,
             message = pre ++ "@" ++ tok ++ post
             /\ tok <> "" /\ Spec.noSpace tok = true
             /\ Spec.endsToken post = true /\ Spec.mentionFree pre = true)
         \/ parseMention message = (None, message)).
Proof.
  split; [|split].
  - intros pre tok post Hne Hns Hend Hfree. unfold parseMention.
    now rewrite (mentionMatch_complete pre tok post Hne Hns Hend Hfree).
  - intros message H. unfold parseMention.
    now rewrite (mentionMatch_no_at _ H).
  - intros message. unfold parseMention.
    destruct (mentionMatch message) as [[[pre tok] post]|] eqn:E.
    + left. exists pre, tok, post. now apply mentionMatch_sound.
    + now right.
Qed.

Lemma parseMention_first_token_witness :
  ("report" <> "" /\ Spec.noSpace "report" = true
   /\ Spec.endsToken " summarize" = true /\ Spec.mentionFree "see @ " = true
   /\ parseMention ("see @ " ++ "@" ++ "report" ++ " summarize")
      = (Some "report", trim ("see @ " ++ " summarize")))
  /\ (includes "summarize everything" "@" = false
      /\ parseMention "summarize everything" = (None, "summarize everything")).
Proof.
  split.
  - split; [discriminate|]. do 3 (split; [reflexivity|]).
    apply (proj1 parseMention_first_token "see @ " "report" " summarize");
      [discriminate | reflexivity | reflexivity | reflexivity].
  - split; [reflexivity|].
    apply (proj1 (proj2 parseMention_first_token) "summarize everything").
    reflexivity.
Defined.

(** The example of the specification: "@report summarize". *)
Example parseMention_report_summarize :
  parseMention "@report summarize" = (Some "report", "summarize").
Proof. reflexivity. Qed.

(** * Removal on a deletion event *)

Section Removal.

Import Spec.

Lemma In_set (s : DocumentStore) (k : string) (d : DocumentRecord) :
  forall k' d', In (k', d') (Store.set s k d) ->
                (k', d') = (k, d) \/ In (k', d') s.
Proof.
  induction s as [|[k0 d0] s IH]; simpl; intros k' d' H.
  - destruct H as [H|[]]. now left.
  - destruct (String.eqb k0 k); simpl in H.
    + destruct H as [H|H]; [now left | right; now right].
    + destruct H as [H|H]; [right; now left|].
      destruct (IH _ _ H) as [E|Hin]; [now left | right; now right].
Qed.

(** Both ingestion paths keep the store keyed. *)
Lemma processDocument_keyed fs fileName now date store :
  keyed store -> keyed (processDocument fs fileName now date store).
Proof.
  intros Hk. unfold processDocument.
  destruct (negb (existsSync fs fileName)); [exact Hk|].
  destruct (extractByType fs fileName) as [[t|]|]; try exact Hk.
  intros k d H. apply In_set in H as [[= -> ->]|H]; [|now apply Hk].
  now exists now.
Qed.

Lemma uploadOne_keyed fs file now date store store' :
  keyed store -> uploadOne fs file now date store = Some store' ->
  keyed store'.
Proof.
  intros Hk. unfold uploadOne.
  match goal with |- context [match ?e with _ => _ end] => destruct e end;
    [|discriminate].
  intros [= <-] k d H. apply In_set in H as [[= -> ->]|H]; [|now apply Hk].
  now exists now.
Qed.

Lemma docId_includes (now : N) (fileName : string) :
  includes (docId now fileName) fileName = true.
Proof.
  unfold docId. rewrite <- append_assoc. apply includes_suffix.
Qed.

Lemma docId_not_empty (now : N) (fileName : string) :
  docId now fileName <> "".
Proof.
  unfold docId. destruct (ofN now); discriminate.
Qed.

Variable filename : string.

Let hit (key : string) : bool := includes key filename.

Lemma find_skips (s1 : DocumentStore) (rest : list string) :
  (forall k d, In (k, d) s1 -> hit k = false) ->
  find hit (keys s1 ++ rest)%list = find hit rest.
Proof.
  induction s1 as [|[k d] s1 IH]; simpl; intros H; [reflexivity|].
  rewrite (H k d) by now left.
  apply IH. intros k' d' Hin. apply (H k' d'). now right.
Qed.

Lemma delete_skips (s1 s2 : DocumentStore) (k : string) (d : DocumentRecord) :
  (forall k' d', In (k', d') s1 -> k' <> k) ->
  Store.delete (s1 ++ (k, d) :: s2)%list k = (s1 ++ s2)%list.
Proof.
  induction s1 as [|[k0 d0] s1 IH]; simpl; intros H.
  - now rewrite String.eqb_refl.
  - destruct (String.eqb_spec k0 k) as [E|_].
    + now elim (H k0 d0 (or_introl eq_refl)).
    + f_equal. apply IH. intros k' d' Hin. apply (H k' d'). now right.
Qed.

Lemma find_none_unchanged (store : DocumentStore) :
  (forall k d, In (k, d) store -> hit k = false) ->
  removeByFileName store filename = store.
Proof.
  intros H. unfold removeByFileName. fold hit.
  replace (keys store) with (keys store ++ [])%list by apply app_nil_r.
  now rewrite (find_skips store [] H).
Qed.

End Removal.

(** C1 (as amended): in a store keyed by the ingestion paths where no
    record of another file has an id that contains the deleted file
    name, a deletion event removes the first record of that file in
    enumeration order, that is the one ingested earliest, and nothing
    else; when the store holds no record of the file it is unchanged. *)
Theorem removeByFileName_removes_earliest :
  forall (store : DocumentStore) (filename : string),
    Spec.keyed store ->
    (forall k d, In (k, d) store -> name d <> filename ->
                 includes k filename = false) ->
    ((forall k d, In (k, d) store -> name d <> filename) ->
     removeByFileName store filename = store)
    /\ (forall s1 k d s2,
           store = (s1 ++ (k, d) :: s2)%list ->
           name d = filename ->
           (forall k' d', In (k', d') s1 -> name d' <> filename) ->
           removeByFileName store filename = (s1 ++ s2)%list).
Proof.
  intros store filename Hkeyed Hother. split.
  - intros Hnone. apply find_none_unchanged.
    intros k d Hin. apply (Hother k d Hin). now apply (Hnone k d).
  - intros s1 k d s2 -> Hname Hbefore.
    assert (Hs1 : forall k' d', In (k', d') s1 -> includes k' filename = false).
    { intros k' d' Hin. apply (Hother k' d').
      - apply in_or_app. now left.
      - now apply (Hbefore k' d'). }
    destruct (Hkeyed k d) as [now Hk].
    { apply in_or_app. right. now left. }
    rewrite Hname in Hk.
    assert (Hhit : includes k filename = true)
      by (rewrite Hk; apply docId_includes).
    unfold removeByFileName, keys.
    rewrite map_app. cbn [map fst].
    rewrite (find_skips filename s1 _ Hs1). cbn [find]. rewrite Hhit.
    destruct (String.eqb_spec k "") as [E|_].
    + exfalso. rewrite Hk in E. now apply docId_not_empty in E.
    + apply delete_skips. intros k' d' Hin E. subst k'.
      rewrite (Hs1 k d' Hin) in Hhit. discriminate.
Qed.

Lemma removeByFileName_removes_earliest_witness :
  Spec.keyed Examples.twoVersions
  /\ (forall k d, In (k, d) Examples.twoVersions -> name d <> "a.pdf" ->
                  includes k "a.pdf" = false)
  /\ removeByFileName Examples.twoVersions "a.pdf"
     = ([] ++ [("2-a.pdf",
                mkDocument "2-a.pdf" "a.pdf" (Some "quarterly figures") 2)])%list.
Proof.
  assert (Hk : Spec.keyed Examples.twoVersions).
  { unfold Examples.twoVersions.
    do 2 apply processDocument_keyed. intros k d []. }
  assert (Ho : forall k d, In (k, d) Examples.twoVersions ->
                           name d <> "a.pdf" -> includes k "a.pdf" = false).
  { intros k d [[= <- <-]|[[= <- <-]|[]]] Hne; now elim Hne. }
  split; [exact Hk|]. split; [exact Ho|].
  apply (proj2 (removeByFileName_removes_earliest
                  Examples.twoVersions "a.pdf" Hk Ho)
               [] "1-a.pdf"
               (mkDocument "1-a.pdf" "a.pdf" (Some "quarterly figures") 1)
               [("2-a.pdf",
                 mkDocument "2-a.pdf" "a.pdf" (Some "quarterly figures") 2)]).
  - reflexivity.
  - reflexivity.
  - intros k' d' [].
Defined.

(** C1 as stated fails twice.  With two records of one file, the
    deletion event removes the older one and keeps the most recent,
    where the specification removes the most recent; and with a file
    whose name ends another file's name, it removes the record of the
    other file. *)
Lemma removeByFileName_counterexample :
  (removeByFileName Examples.twoVersions "a.pdf"
   = [("2-a.pdf", mkDocument "2-a.pdf" "a.pdf" (Some "quarterly figures") 2)]
   /\ Spec.removeMostRecent Examples.twoVersions "a.pdf"
      = [("1-a.pdf", mkDocument "1-a.pdf" "a.pdf" (Some "quarterly figures") 1)]
   /\ removeByFileName Examples.twoVersions "a.pdf"
      <> Spec.removeMostRecent Examples.twoVersions "a.pdf")
  /\ (removeByFileName Examples.twoFiles "a.pdf"
      = [("2-a.pdf", mkDocument "2-a.pdf" "a.pdf" (Some "quarterly figures") 2)]
      /\ ~ In "ba.pdf"
           (map name (values (removeByFileName Examples.twoFiles "a.pdf")))
      /\ In "ba.pdf" (map name (values Examples.twoFiles))).
Proof.
  split; [split; [reflexivity | split; [reflexivity | discriminate]]|].
  split; [reflexivity|]. split.
  - intros [H|[]]. discriminate.
  - left. reflexivity.
Qed.

(** * Scores of the fallback search *)

Section FallbackScores.

Variable keywords : list string.

Lemma scoreParagraph_formula (paragraph : string) (sc : Q) :
  scoreParagraph keywords paragraph = Some sc ->
  0 < List.length (keywordMatches keywords paragraph)
  /\ (sc == Spec.formulaScore
              (List.length (keywordMatches keywords paragraph)) paragraph)%Q.
Proof.
  unfold scoreParagraph, Spec.formulaScore.
  replace (Spec.headingLike paragraph) with (looksLikeHeading paragraph)
    by (unfold Spec.headingLike, looksLikeHeading;
        now rewrite (andb_comm (_ <? 200))).
  set (mc := List.length (keywordMatches keywords paragraph)).
  destruct (0 <? mc) eqn:Hpos; [|discriminate].
  apply Nat.ltb_lt in Hpos. intros [= <-]. split; [exact Hpos|].
  assert (Hdensity :
            (500 # Pos.of_succ_nat (String.length paragraph)
             == inject_Z 500
                / inject_Z (Z.of_nat (String.length paragraph + 1)))%Q).
  { rewrite Qmake_Qdiv.
    now rewrite Zpos_P_of_succ_nat, <- Nat2Z.inj_succ, Nat.add_1_r. }
  destruct (1 <? mc); destruct (looksLikeHeading paragraph);
    rewrite <- ?Hdensity; ring.
Qed.

Lemma scoreParagraph_skips (paragraph : string) :
  scoreParagraph keywords paragraph = None
  <-> List.length (keywordMatches keywords paragraph) = 0.
Proof.
  unfold scoreParagraph.
  destruct (0 <? List.length (keywordMatches keywords paragraph)) eqn:E.
  - apply Nat.ltb_lt in E. split; [discriminate | lia].
  - apply Nat.ltb_ge in E. split; [lia | reflexivity].
Qed.

Lemma In_scoreParagraphs (source : string) (paragraphs : list string)
      (r : RankedPassage) :
  In r (scoreParagraphs keywords source paragraphs) <->
  In (p_text r) paragraphs /\ p_source r = source
  /\ scoreParagraph keywords (p_text r) = Some (p_score r).
Proof.
  induction paragraphs as [|p ps IH]; simpl.
  - tauto.
  - destruct (scoreParagraph keywords p) as [sc|] eqn:E; simpl.
    + rewrite IH. split.
      * intros [<-|(Hin & Hs & Hsc)]; simpl; auto.
      * intros ([->|Hin] & Hs & Hsc); [left | right; auto].
        destruct r as [t q src]; simpl in *. congruence.
    + rewrite IH. split.
      * intros (Hin & Hs & Hsc); auto.
      * intros ([->|Hin] & Hs & Hsc); [congruence | auto].
Qed.

Lemma In_matchingParagraphs (docs : list DocumentRecord)
      (found : list RankedPassage) :
  matchingParagraphs keywords docs = Some found ->
  forall r,
    In r found <->
    exists doc t,
      In doc docs /\ text doc = Some t
      /\ In r (scoreParagraphs keywords (name doc) (paragraphsOf t)).
Proof.
  revert found.
  induction docs as [|doc docs IH]; simpl; intros found H r.
  - inversion H; subst. split; [intros [] | intros (? & ? & [] & _)].
  - destruct (text doc) as [t|] eqn:Ht; [|discriminate].
    destruct (matchingParagraphs keywords docs) as [f|]; [|discriminate].
    inversion H; subst. rewrite in_app_iff, (IH f eq_refl r). split.
    + intros [Hin|(d & t' & Hd & Ht' & Hin)].
      * exists doc, t. auto.
      * exists d, t'. auto.
    + intros (d & t' & [<-|Hd] & Ht' & Hin).
      * left. congruence.
      * right. exists d, t'. auto.
Qed.

End FallbackScores.

(** C3 (as amended): every passage the fallback search retains is a
    trimmed paragraph, longer than 30 characters, of a stored document;
    its match count, the number of keywords of the question (words
    longer than 3 characters of the lower-cased question, each counted
    as often as the question repeats it) that occur in the lower-cased
    paragraph, is positive; and its score is the match count, plus
    2^(matchCount-1) and 500/(length+1) when the match count exceeds 1,
    plus 2 when the paragraph has more than 20 and fewer than 200
    characters and holds a colon or two consecutive capital letters. *)
Theorem fallback_score_formula :
  forall (keywords : list string) (docs : list DocumentRecord)
         (found : list RankedPassage) (r : RankedPassage),
    matchingParagraphs keywords docs = Some found ->
    In r found ->
    (exists doc t,
        In doc docs /\ text doc = Some t
        /\ In (p_text r) (paragraphsOf t) /\ p_source r = name doc)
    /\ 30 < String.length (p_text r)
    /\ 0 < List.length (keywordMatches keywords (p_text r))
    /\ (p_score r
        == Spec.formulaScore
             (List.length (keywordMatches keywords (p_text r))) (p_text r))%Q.
Proof.
  intros keywords docs found r Hfound Hin.
  apply (In_matchingParagraphs keywords docs found Hfound) in Hin
    as (doc & t & Hdoc & Ht & Hin).
  apply In_scoreParagraphs in Hin as (Hp & Hsrc & Hsc).
  apply scoreParagraph_formula in Hsc as [Hpos Hscore].
  split; [now exists doc, t|].
  split; [|now split].
  unfold paragraphsOf in Hp. apply filter_In in Hp as [_ Hlen].
  now apply Nat.ltb_lt in Hlen.
Qed.

Lemma fallback_score_formula_witness :
  matchingParagraphs (keywordsOf "stored data") [Examples.dataDocument]
  = Some [mkPassage Examples.dataParagraph (660 # 40) "a.pdf"]
  /\ In (mkPassage Examples.dataParagraph (660 # 40) "a.pdf")
        [mkPassage Examples.dataParagraph (660 # 40) "a.pdf"]
  /\ 30 < String.length Examples.dataParagraph
  /\ (660 # 40
      == Spec.formulaScore
           (List.length (keywordMatches (keywordsOf "stored data")
                                        Examples.dataParagraph))
           Examples.dataParagraph)%Q.
Proof.
  assert (H : matchingParagraphs (keywordsOf "stored data")
                                 [Examples.dataDocument]
              = Some [mkPassage Examples.dataParagraph (660 # 40) "a.pdf"])
    by reflexivity.
  split; [exact H|]. split; [now left|].
  destruct (fallback_score_formula _ _ _ _ H (or_introl eq_refl))
    as (_ & Hlen & _ & Hscore).
  split; [exact Hlen | exact Hscore].
Defined.

(** C3 as stated fails when the question repeats a keyword: for the
    question "data data" the paragraph holds one distinct keyword, so
    the stated score is 1, and the code scores it 2 + 2 + 500/40. *)
Lemma fallback_score_counterexample :
  keywordsOf "data data" = ["data"; "data"]
  /\ matchingParagraphs (keywordsOf "data data") [Examples.dataDocument]
     = Some [mkPassage Examples.dataParagraph (660 # 40) "a.pdf"]
  /\ Spec.distinctMatchCount (keywordsOf "data data") Examples.dataParagraph = 1
  /\ ~ (660 # 40
        == Spec.formulaScore
             (Spec.distinctMatchCount (keywordsOf "data data")
                                      Examples.dataParagraph)
             Examples.dataParagraph)%Q.
Proof.
  split; [reflexivity|]. split; [reflexivity|]. split; [reflexivity|].
  vm_compute. discriminate.
Qed.

(** * The completion attempt and the fallback *)

Section Pipeline.

Variable srv : Services.
Variable store : DocumentStore.

Lemma answerStage_unfold (context cleaned : string) :
  answerStage srv store context cleaned
  = (match complete srv systemMessage (userMessage context cleaned) with
     | Completed content => trim content ++ GENERATED_NOTE
     | Failed _ => fallbackSearch store cleaned
     end,
     [CallCompletion systemMessage (userMessage context cleaned)]).
Proof.
  unfold answerStage, bind, callCompletion, ret.
  now destruct (complete srv systemMessage (userMessage context cleaned)).
Qed.

(** Whatever the session store does, the answer goes out with status
    200, and recording it never calls the completion service. *)
Lemma persist_replies (chatId : option string) (cleaned response : string) :
  status (fst (persist srv chatId cleaned response)) = 200
  /\ success (fst (persist srv chatId cleaned response)) = true
  /\ answer (fst (persist srv chatId cleaned response)) = response
  /\ forall sys usr,
      ~ In (CallCompletion sys usr)
           (snd (persist srv chatId cleaned response)).
Proof.
  unfold persist, bind, callCreateSession, callInsertHistory, ret.
  destruct chatId as [cid|]; [destruct (String.eqb cid "")|];
    try (destruct (createSession srv) as [[newId|]| |]); simpl;
    repeat split; intros sys usr H;
    repeat (destruct H as [H|H]; [discriminate|]); exact H.
Qed.

Lemma mentionStage_cases (message : string) :
  match mentionStage store message with
  | inl r => status r = 400
  | inr (target, cleaned) => parseMention message = (target, cleaned)
  end.
Proof.
  unfold mentionStage.
  destruct (parseMention message) as [[t|] c]; [|reflexivity].
  now destruct (List.length (matchingDocIds store t) =? 0).
Qed.

(** The handler either replies before any external call, with a status
    other than 200, or runs the completion attempt on the resolved
    context and then records the exchange. *)
Lemma chat_cases (message : string) (chatId : option string) :
  (snd (chat srv store message chatId) = []
   /\ status (fst (chat srv store message chatId)) <> 200)
  \/ exists context,
      documentContext store (fst (parseMention message)) = Some context
      /\ chat srv store message chatId
         = bind (answerStage srv store context (snd (parseMention message)))
                (persist srv chatId (snd (parseMention message))).
Proof.
  unfold chat.
  destruct (List.length (keys store) =? 0); [left; split; simpl; congruence|].
  pose proof (mentionStage_cases message) as Hm.
  destruct (mentionStage store message) as [r|[target cleaned]].
  - left. simpl. split; [reflexivity | congruence].
  - rewrite Hm. cbn [fst snd].
    destruct (documentContext store target) as [context|];
      [|left; split; simpl; congruence].
    destruct (String.eqb context "" || String.eqb (trim context) "");
      [left; split; simpl; congruence|].
    destruct (negb (keyConfigured srv)); [left; split; simpl; congruence|].
    right. now exists context.
Qed.

Lemma bind_answer_persist (chatId : option string) (context cleaned : string) :
  bind (answerStage srv store context cleaned) (persist srv chatId cleaned)
  = (fst (persist srv chatId cleaned
                  (match complete srv systemMessage
                                  (userMessage context cleaned) with
                   | Completed content => trim content ++ GENERATED_NOTE
                   | Failed _ => fallbackSearch store cleaned
                   end)),
     CallCompletion systemMessage (userMessage context cleaned)
     :: snd (persist srv chatId cleaned
                     (match complete srv systemMessage
                                     (userMessage context cleaned) with
                      | Completed content => trim content ++ GENERATED_NOTE
                      | Failed _ => fallbackSearch store cleaned
                      end))).
Proof.
  rewrite answerStage_unfold. unfold bind.
  now destruct (persist srv chatId cleaned _).
Qed.

(** A completion call in the log pins down the prompts and the reply. *)
Lemma chat_completion_call (message : string) (chatId : option string)
      (sys usr : string) :
  In (CallCompletion sys usr) (snd (chat srv store message chatId)) ->
  exists context,
    documentContext store (fst (parseMention message)) = Some context
    /\ sys = systemMessage
    /\ usr = userMessage context (snd (parseMention message))
    /\ fst (chat srv store message chatId)
       = fst (persist srv chatId (snd (parseMention message))
                      (match complete srv sys usr with
                       | Completed content => trim content ++ GENERATED_NOTE
                       | Failed _ =>
                           fallbackSearch store (snd (parseMention message))
                       end)).
Proof.
  intros Hin.
  destruct (chat_cases message chatId) as [[Hlog _]|(context & Hctx & Hchat)].
  - rewrite Hlog in Hin. destruct Hin.
  - exists context. split; [exact Hctx|].
    rewrite Hchat, bind_answer_persist in Hin |- *.
    cbn [fst snd] in Hin |- *.
    destruct Hin as [Heq|Hin].
    + inversion Heq; subst sys usr. repeat split; reflexivity.
    + now apply persist_replies in Hin.
Qed.

Lemma fallbackSearch_forms (cleaned : string) :
  fallbackSearch store cleaned = SEARCH_ERROR
  \/ fallbackSearch store cleaned = NO_MATCHING_INFORMATION
  \/ exists topResults,
      topResults <> []
      /\ List.length topResults <= 5
      /\ fallbackSearch store cleaned = composeAnswer cleaned topResults.
Proof.
  unfold fallbackSearch.
  destruct (matchingParagraphs (keywordsOf cleaned) (values store))
    as [found|]; [|now left].
  right.
  destruct (firstn 5 (sortByScore found)) as [|r top] eqn:E.
  - now left.
  - right. exists (r :: top). split; [discriminate|].
    split; [|reflexivity]. rewrite <- E. apply firstn_le_length.
Qed.

End Pipeline.

(** C4: whenever the handler called the completion service and that
    call failed, for whatever reason, the request is answered with
    status 200 and [success = true]; the answer is the result of the
    fallback search on the cleaned question, which is the search-error
    apology, the fixed no-matching-information message, or an answer
    composed from between one and five passages. *)
Theorem completion_failure_falls_back :
  forall (srv : Services) (store : DocumentStore) (message : string)
         (chatId : option string) (sys usr : string)
         (why : CompletionFailure),
    In (CallCompletion sys usr) (snd (chat srv store message chatId)) ->
    complete srv sys usr = Failed why ->
    status (fst (chat srv store message chatId)) = 200
    /\ success (fst (chat srv store message chatId)) = true
    /\ answer (fst (chat srv store message chatId))
       = fallbackSearch store (snd (parseMention message))
    /\ (answer (fst (chat srv store message chatId)) = SEARCH_ERROR
        \/ answer (fst (chat srv store message chatId))
           = NO_MATCHING_INFORMATION
        \/ exists topResults,
            topResults <> [] /\ List.length topResults <= 5
            /\ answer (fst (chat srv store message chatId))
               = composeAnswer (snd (parseMention message)) topResults).
Proof.
  intros srv store message chatId sys usr why Hin Hfail.
  destruct (chat_completion_call srv store message chatId sys usr Hin)
    as (context & _ & _ & _ & Hreply).
  rewrite Hfail in Hreply. rewrite Hreply.
  destruct (persist_replies srv chatId (snd (parseMention message))
              (fallbackSearch store (snd (parseMention message))))
    as (Hst & Hok & Hans & _).
  rewrite Hst, Hok, Hans. repeat split.
  apply fallbackSearch_forms.
Qed.

Lemma completion_failure_falls_back_witness :
  In (CallCompletion
        systemMessage
        (userMessage Examples.reportText
                     "explain latency and throughput tradeoffs"))
     (snd (chat Examples.failingServices Examples.reports
                "@report explain latency and throughput tradeoffs" None))
  /\ complete Examples.failingServices systemMessage
              (userMessage Examples.reportText
                           "explain latency and throughput tradeoffs")
     = Failed NetworkError
  /\ status (fst (chat Examples.failingServices Examples.reports
                       "@report explain latency and throughput tradeoffs"
                       None)) = 200
  /\ success (fst (chat Examples.failingServices Examples.reports
                        "@report explain latency and throughput tradeoffs"
                        None)) = true.
Proof.
  assert (Hin : In (CallCompletion
                      systemMessage
                      (userMessage Examples.reportText
                                   "explain latency and throughput tradeoffs"))
                   (snd (chat Examples.failingServices Examples.reports
                              "@report explain latency and throughput tradeoffs"
                              None)))
    by (left; reflexivity).
  split; [exact Hin|]. split; [reflexivity|].
  destruct (completion_failure_falls_back
              Examples.failingServices Examples.reports
              "@report explain latency and throughput tradeoffs" None
              _ _ NetworkError Hin eq_refl) as (Hst & Hok & _).
  split; [exact Hst | exact Hok].
Defined.

(** C10: the user message of every completion call is the fixed head,
    then a chunk that is the first [min 1500 (length context)]
    characters of the assembled context, then the tail with the cleaned
    question; and the fallback search reads whole texts: every trimmed
    paragraph of every stored document, wherever it lies in the text,
    that is longer than 30 characters and matches a keyword is among
    the passages found. *)
Theorem prompt_truncated_search_untruncated :
  forall (srv : Services) (store : DocumentStore) (message : string)
         (chatId : option string) (sys usr : string),
    In (CallCompletion sys usr) (snd (chat srv store message chatId)) ->
    (exists context chunk rest,
        documentContext store (fst (parseMention message)) = Some context
        /\ context = chunk ++ rest
        /\ String.length chunk = Nat.min 1500 (String.length context)
        /\ usr = userMessageHead ++ chunk
                 ++ userMessageTail (snd (parseMention message)))
    /\ (forall keywords found doc t p,
           matchingParagraphs keywords (values store) = Some found ->
           In doc (values store) -> text doc = Some t ->
           In p (map trim (split_blank t)) ->
           30 < String.length p ->
           0 < List.length (keywordMatches keywords p) ->
           exists sc, In (mkPassage p sc (name doc)) found).
Proof.
  intros srv store message chatId sys usr Hin. split.
  - destruct (chat_completion_call srv store message chatId sys usr Hin)
      as (context & Hctx & _ & Husr & _).
    destruct (substring_0_prefix 1500 context) as [rest Hrest].
    exists context, (substring 0 1500 context), rest.
    split; [exact Hctx|]. split; [exact Hrest|].
    split; [apply substring_0_length | exact Husr].
  - intros keywords found doc t p Hfound Hdoc Ht Hp Hlen Hmc.
    destruct (scoreParagraph keywords p) as [sc|] eqn:Hsc.
    + exists sc.
      apply (In_matchingParagraphs keywords _ _ Hfound).
      exists doc, t. split; [exact Hdoc|]. split; [exact Ht|].
      apply In_scoreParagraphs. cbn [p_text p_source p_score].
      split; [|split; [reflexivity | exact Hsc]].
      unfold paragraphsOf. apply filter_In. split; [exact Hp|].
      now apply Nat.ltb_lt.
    + apply scoreParagraph_skips in Hsc. lia.
Qed.

Lemma prompt_truncated_search_untruncated_witness :
  In (CallCompletion
        systemMessage
        (userMessage Examples.longText "where are the latency numbers"))
     (snd (chat Examples.failingServices Examples.longStore
                "where are the latency numbers" None))
  /\ matchingParagraphs (keywordsOf "where are the latency numbers")
                        (values Examples.longStore)
     = Some [mkPassage Examples.lastParagraph (704 # 51) "long.pdf"]
  /\ includes (userMessage Examples.longText "where are the latency numbers")
              Examples.lastParagraph = false
  /\ (exists context chunk rest,
         documentContext Examples.longStore
                         (fst (parseMention "where are the latency numbers"))
         = Some context
         /\ context = chunk ++ rest
         /\ String.length chunk = Nat.min 1500 (String.length context)
         /\ userMessage Examples.longText "where are the latency numbers"
            = userMessageHead ++ chunk
              ++ userMessageTail
                   (snd (parseMention "where are the latency numbers")))
  /\ (exists sc,
         In (mkPassage Examples.lastParagraph sc "long.pdf")
            [mkPassage Examples.lastParagraph (704 # 51) "long.pdf"]).
Proof.
  assert (Hin : In (CallCompletion
                      systemMessage
                      (userMessage Examples.longText
                                   "where are the latency numbers"))
                   (snd (chat Examples.failingServices Examples.longStore
                              "where are the latency numbers" None)))
    by (left; vm_compute; reflexivity).
  assert (Hfound : matchingParagraphs
                     (keywordsOf "where are the latency numbers")
                     (values Examples.longStore)
                   = Some [mkPassage Examples.lastParagraph (704 # 51)
                                     "long.pdf"])
    by (vm_compute; reflexivity).
  destruct (prompt_truncated_search_untruncated
              Examples.failingServices Examples.longStore
              "where are the latency numbers" None _ _ Hin)
    as [Hprompt Hsearch].
  split; [exact Hin|]. split; [exact Hfound|].
  split; [vm_compute; reflexivity|]. split; [exact Hprompt|].
  apply (Hsearch (keywordsOf "where are the latency numbers") _
                 (mkDocument "1-long.pdf" "long.pdf"
                             (Some Examples.longText) 1)
                 Examples.longText Examples.lastParagraph Hfound).
  - left; reflexivity.
  - reflexivity.
  - vm_compute. right. left. reflexivity.
  - vm_compute. lia.
  - vm_compute. lia.
Defined.

(** * Targeted questions on the fallback path *)

(** C5, evaluated where it fails: the target "report" matches two
    stored names and the context handed to the completion attempt is
    the text of the first of them alone; the completion call fails, and
    the answer is composed from passages of all three stored documents,
    the first of them from a document the mention does not match. *)
Theorem targeted_fallback_reads_every_document :
  matchingDocIds Examples.reports "report"
  = ["1-Report.pdf"; "2-report_v2.docx"]
  /\ documentContext Examples.reports (Some "report")
     = Some Examples.reportText
  /\ matchingDocIds Examples.reports "notes" = ["3-notes.pdf"]
  /\ exists topResults,
      answer (fst (chat Examples.failingServices Examples.reports
                        "@report explain latency and throughput tradeoffs"
                        None))
      = composeAnswer "explain latency and throughput tradeoffs" topResults
      /\ map p_source topResults
         = ["notes.pdf"; "Report.pdf"; "report_v2.docx"].
Proof.
  split; [reflexivity|]. split; [reflexivity|]. split; [reflexivity|].
  exists [mkPassage Examples.notesText (1166 # 74) "notes.pdf";
          mkPassage Examples.reportText (inject_Z 3) "Report.pdf";
          mkPassage Examples.reportV2Text (inject_Z 1) "report_v2.docx"].
  split; vm_compute; reflexivity.
Qed.

(** * Record identifiers *)

Section Identifiers.

Lemma string_of_uint_dash_injective (d d' : Decimal.uint) (x y : string) :
  NilEmpty.string_of_uint d ++ "-" ++ x
  = NilEmpty.string_of_uint d' ++ "-" ++ y ->
  d = d' /\ x = y.
Proof.
  revert d'.
  induction d as [|d IH|d IH|d IH|d IH|d IH|d IH|d IH|d IH|d IH|d IH];
    intros [|d'|d'|d'|d'|d'|d'|d'|d'|d'|d']; simpl; intros H;
    try discriminate;
    try (injection H as H; destruct (IH d' H) as [-> ->]; now split).
  injection H as H. now split.
Qed.

(** Ids differ as soon as the clock reading or the file name does. *)
Lemma docId_injective (now now' : N) (fileName fileName' : string) :
  docId now fileName = docId now' fileName' ->
  now = now' /\ fileName = fileName'.
Proof.
  unfold docId, ofN. intros H.
  apply string_of_uint_dash_injective in H as [Hd Hf].
  split; [now apply DecimalN.Unsigned.to_uint_inj | exact Hf].
Qed.

(** The store operations never rewrite the [id] of a record they keep. *)
Lemma delete_keeps_records (s : DocumentStore) (k k' : string)
      (d : DocumentRecord) :
  In (k', d) (Store.delete s k) -> In (k', d) s.
Proof.
  induction s as [|[k0 d0] s IH]; simpl; [tauto|].
  destruct (String.eqb k0 k); simpl; [now right|].
  intros [H|H]; [now left | right; now apply IH].
Qed.

End Identifiers.

(** C7, evaluated where it fails: two ingestion events for the same
    file name read the same millisecond from the clock, the first while
    the file was still blank, the second after its content arrived.
    Both get the same id, and the store ends with one record, the
    second having replaced the first.  The upload handler behaves the
    same way for two files of one request. *)
Theorem same_millisecond_ids_collide :
  keys (processDocument Examples.blankFiles "a.pdf"
                        1700000000000 1700000000000 Store.empty)
  = ["1700000000000-a.pdf"]
  /\ processDocument Examples.plainFiles "a.pdf" 1700000000000 1700000000001
       (processDocument Examples.blankFiles "a.pdf"
                        1700000000000 1700000000000 Store.empty)
     = [("1700000000000-a.pdf",
         mkDocument "1700000000000-a.pdf" "a.pdf"
                    (Some "quarterly figures") 1700000000001)]
  /\ fst (upload Examples.plainFiles
                 [(mkUploadedFile "a.pdf" MimePdf "up1", 1700000000000%N,
                   1700000000000%N);
                  (mkUploadedFile "a.pdf" MimeDoc "up2", 1700000000000%N,
                   1700000000000%N)]
                 Store.empty)
     = [("1700000000000-a.pdf",
         mkDocument "1700000000000-a.pdf" "a.pdf"
                    (Some "quarterly figures") 1700000000000)].
Proof.
  split; [vm_compute; reflexivity|]. split; vm_compute; reflexivity.
Qed.


(** * Further properties of the ingestion paths *)

Section IngestionFacts.

Lemma toLowerCase_append (a b : string) :
  toLowerCase (a ++ b) = toLowerCase a ++ toLowerCase b.
Proof. induction a as [|c a IH]; simpl; [reflexivity | now rewrite IH]. Qed.

Lemma endsWith_append (a b : string) : endsWith (a ++ b) b = true.
Proof.
  induction a as [|c a IH].
  - destruct b as [|c b]; [reflexivity|].
    cbn [append endsWith]. now rewrite String.eqb_refl.
  - change (String c a ++ b) with (String c (a ++ b)).
    cbn [endsWith]. rewrite IH. apply orb_true_r.
Qed.

Lemma lastDotSuffix_suffix (s e : string) :
  lastDotSuffix s = Some e -> exists pre, s = pre ++ e.
Proof.
  revert e. induction s as [|c s IH]; simpl; intros e H; [discriminate|].
  destruct (lastDotSuffix s) as [e'|].
  - inversion H; subst. destruct (IH e eq_refl) as [pre ->].
    now exists (String c pre).
  - destruct (c =? ".")%char; [|discriminate].
    inversion H; subst. now exists "".
Qed.

Lemma extname_suffix (base : string) :
  extname base <> "" -> exists pre, base = pre ++ extname base.
Proof.
  unfold extname. destruct base as [|c rest]; [now intros []|].
  destruct (lastDotSuffix rest) as [e|] eqn:E; [|now intros []].
  intros _. destruct (lastDotSuffix_suffix _ _ E) as [pre ->].
  now exists (String c pre).
Qed.

(** A name whose extension [processDocument] dispatches on also passes
    the name filter of the scan and of the watcher. *)
Lemma extractByType_supportedName (fs : FileSystem) (fileName : string) :
  extractByType fs fileName <> None -> supportedName fileName = true.
Proof.
  unfold extractByType, supportedName. intros H.
  assert (Hext : extname fileName <> "").
  { intros E. rewrite E in H. now apply H. }
  destruct (extname_suffix _ Hext) as [pre Hpre].
  rewrite Hpre at 1 2 3. rewrite toLowerCase_append.
  destruct (String.eqb_spec (toLowerCase (extname fileName)) ".pdf") as [->|_].
  { now rewrite endsWith_append. }
  destruct (String.eqb_spec (toLowerCase (extname fileName)) ".doc") as [->|_].
  { rewrite endsWith_append. now rewrite orb_true_r. }
  destruct (String.eqb_spec (toLowerCase (extname fileName)) ".docx") as [->|_].
  { rewrite endsWith_append. now rewrite !orb_true_r. }
  now elim H.
Qed.

Lemma trim_head_not_space (c : ascii) (r : string) :
  is_space c = false -> trim (String c r) <> "".
Proof.
  intros Hc. unfold trim. cbn [trimStart]. rewrite Hc. cbn [trimEnd].
  destruct (trimEnd r); [rewrite Hc|]; discriminate.
Qed.

Lemma placeholder_not_blank (fileName : string) :
  trim (placeholder fileName) <> "".
Proof. unfold placeholder. simpl append. now apply trim_head_not_space. Qed.

Lemma set_fresh (s : DocumentStore) (k : string) (d : DocumentRecord) :
  ~ In k (keys s) -> Store.set s k d = (s ++ [(k, d)])%list.
Proof.
  induction s as [|[k0 d0] s IH]; simpl; intros H; [reflexivity|].
  destruct (String.eqb_spec k0 k) as [E|_]; [now elim H; left|].
  f_equal. apply IH. intros Hin. apply H. now right.
Qed.

Lemma delete_keys_unique (s : DocumentStore) (k : string) :
  NoDup (keys s) -> NoDup (keys (Store.delete s k)).
Proof.
  induction s as [|[k0 d0] s IH]; simpl; intros Hnd; [constructor|].
  inversion Hnd as [|? ? Hnotin Hnd']; subst.
  destruct (String.eqb k0 k); simpl; [assumption|].
  constructor; [|now apply IH].
  intros Hin. apply Hnotin. unfold keys in *.
  apply in_map_iff in Hin as [[k' d'] [E Hin]]. simpl in E; subst k'.
  apply delete_keeps_records in Hin.
  change k0 with (fst (k0, d')). now apply in_map.
Qed.

End IngestionFacts.

(** The two ways [processDocument] can end. *)
Lemma processDocument_cases :
  forall (fs : FileSystem) (fileName : string) (now date : N)
         (store : DocumentStore),
    (existsSync fs fileName = false
     \/ extractByType fs fileName = None
     \/ extractByType fs fileName = Some ExtractionError ->
     processDocument fs fileName now date store = store)
    /\ (processDocument fs fileName now date store = store
        \/ (existsSync fs fileName = true
            /\ supportedName fileName = true
            /\ exists s,
                trim s <> ""
                /\ processDocument fs fileName now date store
                   = Store.set store (docId now fileName)
                       (mkDocument (docId now fileName) fileName
                                   (Some s) date))).
Proof.
  intros fs fileName now date store. unfold processDocument. split.
  - intros [H|[H|H]]; rewrite H; [reflexivity| |];
      now destruct (negb (existsSync fs fileName)).
  - destruct (existsSync fs fileName) eqn:Hex; [|now left].
    cbn [negb].
    destruct (extractByType fs fileName) as [[t|]|] eqn:Hty;
      [|now left|now left].
    right. split; [reflexivity|].
    split; [apply (extractByType_supportedName fs); congruence|].
    destruct (isBlank t) eqn:Hb.
    + exists (placeholder fileName). split; [|reflexivity].
      apply placeholder_not_blank.
    + destruct t as [s|]; [|discriminate]. exists s. split; [|reflexivity].
      simpl in Hb. apply orb_false_elim in Hb as [_ Hb].
      now apply String.eqb_neq in Hb.
Qed.



(** * The store invariant *)

Section Consistency.

Import Inv.

Lemma consistent_empty : consistent Store.empty.
Proof. split; [constructor | intros k d []]. Qed.

Lemma set_consistent (s : DocumentStore) (now : N) (fileName : string)
      (t : option string) (date : N) :
  consistent s ->
  consistent (Store.set s (docId now fileName)
                (mkDocument (docId now fileName) fileName t date)).
Proof.
  intros [Hnd Hrec]. split; [now apply set_keys_unique|].
  intros k d H. apply In_set in H as [[= -> ->]|H]; [|now apply Hrec].
  split; [reflexivity | now exists now].
Qed.

Lemma processDocument_consistent fs fileName now date s :
  consistent s -> consistent (processDocument fs fileName now date s).
Proof.
  intros Hs. unfold processDocument.
  destruct (negb (existsSync fs fileName)); [exact Hs|].
  destruct (extractByType fs fileName) as [[t|]|]; try exact Hs.
  now apply set_consistent.
Qed.

Lemma uploadOne_consistent fs file now date s s' :
  consistent s -> uploadOne fs file now date s = Some s' -> consistent s'.
Proof.
  intros Hs. unfold uploadOne.
  match goal with |- context [match ?e with _ => _ end] => destruct e end;
    [|discriminate].
  intros [= <-]. now apply set_consistent.
Qed.

Lemma upload_consistent fs files :
  forall s, consistent s -> consistent (fst (upload fs files s)).
Proof.
  induction files as [|[[file now] date] files IH]; simpl; intros s Hs;
    [exact Hs|].
  destruct (uploadOne fs file now date s) as [s'|] eqn:E; [|exact Hs].
  apply IH. eapply uploadOne_consistent; eassumption.
Qed.

Lemma delete_consistent (s : DocumentStore) (k : string) :
  consistent s -> consistent (Store.delete s k).
Proof.
  intros [Hnd Hrec]. split; [now apply delete_keys_unique|].
  intros k' d H. apply Hrec. eapply delete_keeps_records; eassumption.
Qed.

Lemma removeByFileName_consistent (s : DocumentStore) (filename : string) :
  consistent s -> consistent (removeByFileName s filename).
Proof.
  intros Hs. unfold removeByFileName.
  destruct (find _ (keys s)) as [k|]; [|exact Hs].
  destruct (String.eqb k ""); [exact Hs | now apply delete_consistent].
Qed.

Lemma onWatchEvent_consistent fs eventType filename now date s :
  consistent s -> consistent (onWatchEvent fs eventType filename now date s).
Proof.
  intros Hs. unfold onWatchEvent.
  destruct eventType; [|exact Hs].
  destruct filename as [f|]; [|exact Hs].
  destruct (String.eqb f ""); [exact Hs|].
  destruct (existsSync fs f && supportedName f);
    [now apply processDocument_consistent|].
  destruct (negb (existsSync fs f));
    [now apply removeByFileName_consistent | exact Hs].
Qed.

Lemma scanFiles_consistent fs files :
  forall s, consistent s -> consistent (scanFiles fs files s).
Proof.
  induction files as [|[[file now] date] files IH]; simpl; intros s Hs;
    [exact Hs|].
  destruct (supportedName file); apply IH; [|exact Hs].
  now apply processDocument_consistent.
Qed.

(** In a store with distinct keys an entry is what its key looks up. *)
Lemma In_get (s : DocumentStore) (k : string) (d : DocumentRecord) :
  NoDup (keys s) -> In (k, d) s -> Store.get s k = Some d.
Proof.
  induction s as [|[k0 d0] s IH]; simpl; intros Hnd Hin; [destruct Hin|].
  inversion Hnd as [|? ? Hnotin Hnd']; subst.
  destruct Hin as [[= -> ->]|Hin].
  - now rewrite String.eqb_refl.
  - destruct (String.eqb_spec k0 k) as [->|_]; [|now apply IH].
    elim Hnotin. unfold keys. change k with (fst (k, d)). now apply in_map.
Qed.

End Consistency.

(** X2: every way the server changes the store (a watcher event, an
    upload request, the start-up scan) keeps it consistent: keys stay
    pairwise distinct and every record stays under its own id, built by
    [Date.now() + '-' + name] from the name it carries. *)
Theorem store_mutations_keep_consistent :
  forall (fs : FileSystem) (store : DocumentStore),
    Inv.consistent store ->
    (forall eventType filename now date,
        Inv.consistent (onWatchEvent fs eventType filename now date store))
    /\ (forall files, Inv.consistent (fst (upload fs files store)))
    /\ (forall listing, Inv.consistent (scanDirectory fs listing store)).
Proof.
  intros fs store Hs. split; [|split].
  - intros. now apply onWatchEvent_consistent.
  - intros. now apply upload_consistent.
  - intros [files|]; simpl; [now apply scanFiles_consistent | exact Hs].
Qed.

Lemma store_mutations_keep_consistent_witness :
  Inv.consistent Store.empty
  /\ Inv.consistent
       (onWatchEvent Examples.plainFiles Rename (Some "a.pdf") 1 1 Store.empty).
Proof.
  split; [apply consistent_empty|].
  apply (proj1 (store_mutations_keep_consistent
                  Examples.plainFiles Store.empty consistent_empty)).
Defined.

(** * Deletion events *)

Section DeletionFacts.

Variable filename : string.
Hypothesis filename_not_empty : filename <> "".

Lemma hit_key_not_empty (k : string) : includes k filename = true -> k <> "".
Proof.
  intros H ->. simpl in H. destruct filename; [now elim filename_not_empty|].
  discriminate.
Qed.

Lemma first_hit_split (s : DocumentStore) :
  (forall k d, In (k, d) s -> includes k filename = false)
  \/ exists s1 k d s2,
      s = (s1 ++ (k, d) :: s2)%list
      /\ (forall k' d', In (k', d') s1 -> includes k' filename = false)
      /\ includes k filename = true.
Proof.
  induction s as [|[k d] s IH]; [left; intros k d []|].
  destruct (includes k filename) eqn:Hk.
  - right. exists [], k, d, s. repeat split; [intros k' d' []|exact Hk].
  - destruct IH as [Hnone|(s1 & k1 & d1 & s2 & -> & Hs1 & Hk1)].
    + left. intros k' d' [[= <- <-]|Hin]; [exact Hk | now apply (Hnone k' d')].
    + right. exists ((k, d) :: s1), k1, d1, s2. repeat split; [|exact Hk1].
      intros k' d' [[= <- <-]|Hin]; [exact Hk | now apply (Hs1 k' d')].
Qed.

Lemma removeByFileName_at_first_hit (s1 s2 : DocumentStore) (k : string)
      (d : DocumentRecord) :
  (forall k' d', In (k', d') s1 -> includes k' filename = false) ->
  includes k filename = true ->
  removeByFileName (s1 ++ (k, d) :: s2)%list filename = (s1 ++ s2)%list.
Proof.
  intros Hs1 Hk. unfold removeByFileName, keys.
  rewrite map_app. cbn [map fst].
  rewrite (find_skips filename s1 _ Hs1). cbn [find]. rewrite Hk.
  destruct (String.eqb_spec k "") as [E|_];
    [now apply hit_key_not_empty in Hk|].
  apply delete_skips. intros k' d' Hin E. subst k'.
  rewrite (Hs1 k d' Hin) in Hk. discriminate.
Qed.

End DeletionFacts.

(** X3: a deletion event for a non-empty file name removes exactly the
    first entry, in enumeration order, whose id contains the file name
    as a substring, and keeps every other entry in place; when no id
    contains it the store is unchanged. *)
Theorem removeByFileName_first_substring_match :
  forall (store : DocumentStore) (filename : string),
    filename <> "" ->
    ((forall k d, In (k, d) store -> includes k filename = false)
     /\ removeByFileName store filename = store)
    \/ exists s1 k d s2,
        store = (s1 ++ (k, d) :: s2)%list
        /\ (forall k' d', In (k', d') s1 -> includes k' filename = false)
        /\ includes k filename = true
        /\ removeByFileName store filename = (s1 ++ s2)%list.
Proof.
  intros store filename Hne.
  destruct (first_hit_split filename store)
    as [Hnone|(s1 & k & d & s2 & -> & Hs1 & Hk)].
  - left. split; [exact Hnone | now apply find_none_unchanged].
  - right. exists s1, k, d, s2. repeat split; try assumption.
    now apply removeByFileName_at_first_hit.
Qed.

Lemma removeByFileName_first_substring_match_witness :
  "a.pdf" <> ""
  /\ (((forall k d, In (k, d) Examples.twoFiles -> includes k "a.pdf" = false)
       /\ removeByFileName Examples.twoFiles "a.pdf" = Examples.twoFiles)
      \/ exists s1 k d s2,
          Examples.twoFiles = (s1 ++ (k, d) :: s2)%list
          /\ (forall k' d', In (k', d') s1 -> includes k' "a.pdf" = false)
          /\ includes k "a.pdf" = true
          /\ removeByFileName Examples.twoFiles "a.pdf" = (s1 ++ s2)%list).
Proof.
  assert (H : "a.pdf" <> "") by discriminate.
  split; [exact H|].
  exact (removeByFileName_first_substring_match Examples.twoFiles "a.pdf" H).
Defined.

(** X4: creating a file and then deleting it gives the store back.  If
    no stored id contains the file name, a watcher event that finds
    the file (with a supported name) followed by a watcher event that
    finds it gone leaves the store exactly as it was, whether or not
    the first event managed to store a record. *)
Theorem watch_create_then_delete_restores :
  forall (fs1 fs2 : FileSystem) (filename : string) (now1 date1 now2 date2 : N)
         (store : DocumentStore),
    (forall k d, In (k, d) store -> includes k filename = false) ->
    existsSync fs1 filename = true ->
    supportedName filename = true ->
    existsSync fs2 filename = false ->
    onWatchEvent fs2 Rename (Some filename) now2 date2
      (onWatchEvent fs1 Rename (Some filename) now1 date1 store)
    = store.
Proof.
  intros fs1 fs2 filename now1 date1 now2 date2 store Hnone Hex1 Hsup Hex2.
  assert (Hne : filename <> "") by (intros ->; discriminate).
  unfold onWatchEvent.
  apply String.eqb_neq in Hne. rewrite Hne, Hex1, Hsup, Hex2. cbn [andb negb].
  apply String.eqb_neq in Hne.
  destruct (processDocument_cases fs1 filename now1 date1 store)
    as [_ [->|(_ & _ & s & _ & ->)]].
  - now apply find_none_unchanged.
  - rewrite set_fresh.
    + rewrite (removeByFileName_at_first_hit filename Hne store []);
        [apply app_nil_r | exact Hnone | apply docId_includes].
    + intros Hin. unfold keys in Hin.
      apply in_map_iff in Hin as [[k d] [E Hin]]. simpl in E; subst k.
      pose proof (Hnone _ _ Hin) as Hk.
      now rewrite docId_includes in Hk.
Qed.

Lemma watch_create_then_delete_restores_witness :
  (forall k d, In (k, d) Examples.twoVersions -> includes k "b.docx" = false)
  /\ existsSync Examples.plainFiles "b.docx" = true
  /\ supportedName "b.docx" = true
  /\ existsSync (mkFileSystem (fun _ => false)
                              (fun _ => ExtractionError)
                              (fun _ => ExtractionError)) "b.docx" = false
  /\ onWatchEvent (mkFileSystem (fun _ => false)
                                (fun _ => ExtractionError)
                                (fun _ => ExtractionError))
                  Rename (Some "b.docx") 9 9
       (onWatchEvent Examples.plainFiles Rename (Some "b.docx") 8 8
                     Examples.twoVersions)
     = Examples.twoVersions.
Proof.
  assert (H : forall k d, In (k, d) Examples.twoVersions ->
                          includes k "b.docx" = false).
  { intros k d [[= <- <-]|[[= <- <-]|[]]]; reflexivity. }
  split; [exact H|]. do 3 (split; [reflexivity|]).
  apply (watch_create_then_delete_restores
           Examples.plainFiles _ "b.docx" 8 8 9 9 Examples.twoVersions H);
    reflexivity.
Defined.

(** * Upload requests and the start-up scan *)

Section UploadFacts.

Import Inv.

Variable fs : FileSystem.

Lemma uploadOne_throws (file : UploadedFile) (now date : N)
      (s : DocumentStore) :
  uploadOne fs file now date s = None <-> uploadThrows fs file = true.
Proof.
  unfold uploadOne, uploadThrows.
  destruct (mimetype file);
    try destruct (extractTextFromPDF fs (path file));
    try destruct (extractTextFromWord fs (path file));
    split; intros H; try discriminate; reflexivity.
Qed.

Lemma upload_all_succeed (files : list (UploadedFile * N * N)) :
  forall s,
    (forall file now date, In (file, now, date) files ->
                           uploadThrows fs file = false) ->
    snd (upload fs files s) = 200.
Proof.
  induction files as [|[[file now] date] files IH]; simpl; intros s H;
    [reflexivity|].
  destruct (uploadOne fs file now date s) as [s'|] eqn:E.
  - apply IH. intros f n d Hin. apply (H f n d). now right.
  - apply uploadOne_throws in E.
    rewrite (H file now date) in E by now left. discriminate.
Qed.

Lemma upload_prefix_then_failure (files1 files2 : list (UploadedFile * N * N))
      (file : UploadedFile) (now date : N) :
  forall s,
    (forall f n d, In (f, n, d) files1 -> uploadThrows fs f = false) ->
    uploadThrows fs file = true ->
    upload fs (files1 ++ (file, now, date) :: files2)%list s
    = (fst (upload fs files1 s), 500).
Proof.
  induction files1 as [|[[f1 n1] d1] files1 IH]; simpl; intros s H Hthrow.
  - destruct (uploadOne fs file now date s) eqn:E; [|reflexivity].
    apply (uploadOne_throws file now date s) in Hthrow. congruence.
  - destruct (uploadOne fs f1 n1 d1 s) as [s'|] eqn:E.
    + apply IH; [|exact Hthrow]. intros f n d Hin. apply (H f n d). now right.
    + apply uploadOne_throws in E.
      rewrite (H f1 n1 d1) in E by now left. discriminate.
Qed.

End UploadFacts.

(** X5: an upload request answers 200 when no extractor throws; when
    the extractor of one file throws it answers 500, the records of
    the files before it stay in the store, and the files after it are
    never looked at. *)
Theorem upload_stops_at_first_failure :
  forall (fs : FileSystem) (store : DocumentStore),
    (forall files,
        (forall file now date, In (file, now, date) files ->
                               Inv.uploadThrows fs file = false) ->
        snd (upload fs files store) = 200)
    /\ (forall files1 file now date files2,
           (forall f n d, In (f, n, d) files1 ->
                          Inv.uploadThrows fs f = false) ->
           Inv.uploadThrows fs file = true ->
           upload fs (files1 ++ (file, now, date) :: files2)%list store
           = (fst (upload fs files1 store), 500)).
Proof.
  intros fs store. split.
  - intros files H. now apply upload_all_succeed.
  - intros. now apply upload_prefix_then_failure.
Qed.

Lemma upload_stops_at_first_failure_witness :
  Inv.uploadThrows
    (mkFileSystem (fun _ => true) (fun _ => Extracted (Some "body"))
                  (fun _ => ExtractionError))
    (mkUploadedFile "b.docx" MimeDocx "up2") = true
  /\ upload (mkFileSystem (fun _ => true) (fun _ => Extracted (Some "body"))
                          (fun _ => ExtractionError))
            ([(mkUploadedFile "a.pdf" MimePdf "up1", 1%N, 1%N)]
             ++ (mkUploadedFile "b.docx" MimeDocx "up2", 2%N, 2%N)
             :: [(mkUploadedFile "c.pdf" MimePdf "up3", 3%N, 3%N)])%list
            Store.empty
     = ([("1-a.pdf", mkDocument "1-a.pdf" "a.pdf" (Some "body") 1)], 500).
Proof.
  split; [reflexivity|].
  apply (proj2 (upload_stops_at_first_failure
                  (mkFileSystem (fun _ => true)
                                (fun _ => Extracted (Some "body"))
                                (fun _ => ExtractionError))
                  Store.empty)
               [(mkUploadedFile "a.pdf" MimePdf "up1", 1%N, 1%N)]
               (mkUploadedFile "b.docx" MimeDocx "up2") 2%N 2%N
               [(mkUploadedFile "c.pdf" MimePdf "up3", 3%N, 3%N)]).
  - intros f n d [[= <- <- <-]|[]]. reflexivity.
  - reflexivity.
Defined.

Section ScanFacts.

Variable fs : FileSystem.
Variable file : string.
Variable now : N.

(** The store holds, under the id of the file, a record of that file
    with a text that is not blank. *)
Let stored (s : DocumentStore) : Prop :=
  exists d, Store.get s (docId now file) = Some d
            /\ name d = file
            /\ exists t, text d = Some t /\ trim t <> "".

Lemma get_set_other (s : DocumentStore) (k k' : string) (d : DocumentRecord) :
  k' <> k -> Store.get (Store.set s k d) k' = Store.get s k'.
Proof.
  intros Hne. induction s as [|[k0 d0] s IH]; simpl.
  - destruct (String.eqb_spec k k'); [congruence | reflexivity].
  - destruct (String.eqb_spec k0 k) as [->|Hk]; simpl.
    + destruct (String.eqb_spec k k'); [congruence|].
      destruct (String.eqb_spec k k'); [congruence | reflexivity].
    + destruct (String.eqb_spec k0 k'); [reflexivity | exact IH].
Qed.

Lemma processDocument_keeps_stored f' now' date' s :
  stored s -> stored (processDocument fs f' now' date' s).
Proof.
  intros Hs.
  destruct (processDocument_cases fs f' now' date' s)
    as [_ [->|(_ & _ & t & Ht & ->)]]; [exact Hs|].
  destruct (string_dec (docId now file) (docId now' f')) as [E|Hne].
  - rewrite <- E. exists (mkDocument (docId now file) f' (Some t) date').
    split; [apply get_set_same|].
    apply docId_injective in E as [_ <-].
    split; [reflexivity | now exists t].
  - destruct Hs as (d & Hget & Hd). exists d. split; [|exact Hd].
    now rewrite get_set_other.
Qed.

Lemma scanFiles_keeps_stored files :
  forall s, stored s -> stored (scanFiles fs files s).
Proof.
  induction files as [|[[f' now'] date'] files IH]; simpl; intros s Hs;
    [exact Hs|].
  destruct (supportedName f'); apply IH; [|exact Hs].
  now apply processDocument_keeps_stored.
Qed.

Lemma processDocument_stores date s t :
  existsSync fs file = true ->
  extractByType fs file = Some (Extracted t) ->
  stored (processDocument fs file now date s).
Proof.
  intros Hex Hty. unfold processDocument. rewrite Hex, Hty. cbn [negb].
  eexists. split; [apply get_set_same|]. split; [reflexivity|].
  cbn [text]. eexists. split; [reflexivity|].
  destruct (isBlank t) eqn:Hb; [apply placeholder_not_blank|].
  destruct t as [t0|]; [|discriminate].
  simpl in Hb. apply orb_false_elim in Hb as [_ Hb].
  now apply String.eqb_neq in Hb.
Qed.

Lemma scanFiles_stores files :
  forall s date t,
    In (file, now, date) files ->
    supportedName file = true ->
    existsSync fs file = true ->
    extractByType fs file = Some (Extracted t) ->
    stored (scanFiles fs files s).
Proof.
  induction files as [|[[f' now'] date'] files IH]; simpl;
    intros s date t Hin Hsup Hex Hty; [destruct Hin|].
  destruct Hin as [[= -> -> ->]|Hin].
  - rewrite Hsup. apply scanFiles_keeps_stored.
    now apply processDocument_stores with (t := t).
  - destruct (supportedName f'); now apply IH with (date := date) (t := t).
Qed.

End ScanFacts.

(** X6: after the start-up scan, every listed file that has a supported
    name, exists and is extracted without error has a record under the
    id built from its clock reading and its name; the record carries
    that name and a text that is present and not blank, whatever else
    the listing contains. *)
Theorem scan_stores_every_readable_file :
  forall (fs : FileSystem) (files : list (string * N * N))
         (store : DocumentStore) (file : string) (now date : N)
         (t : option string),
    In (file, now, date) files ->
    supportedName file = true ->
    existsSync fs file = true ->
    extractByType fs file = Some (Extracted t) ->
    exists d,
      Store.get (scanDirectory fs (Some files) store) (docId now file) = Some d
      /\ name d = file
      /\ exists s, text d = Some s /\ trim s <> "".
Proof.
  intros fs files store file now date t Hin Hsup Hex Hty.
  exact (scanFiles_stores fs file now files store date t Hin Hsup Hex Hty).
Qed.

Lemma scan_stores_every_readable_file_witness :
  In ("a.pdf", 1%N, 1%N) [("readme.txt", 0%N, 0%N); ("a.pdf", 1%N, 1%N)]
  /\ supportedName "a.pdf" = true
  /\ existsSync Examples.blankFiles "a.pdf" = true
  /\ extractByType Examples.blankFiles "a.pdf" = Some (Extracted (Some "   "))
  /\ exists d,
      Store.get (scanDirectory Examples.blankFiles
                   (Some [("readme.txt", 0%N, 0%N); ("a.pdf", 1%N, 1%N)])
                   Store.empty)
                (docId 1 "a.pdf") = Some d
      /\ name d = "a.pdf"
      /\ exists s, text d = Some s /\ trim s <> "".
Proof.
  assert (Hin : In ("a.pdf", 1%N, 1%N)
                   [("readme.txt", 0%N, 0%N); ("a.pdf", 1%N, 1%N)])
    by (right; left; reflexivity).
  split; [exact Hin|]. do 3 (split; [reflexivity|]).
  apply (scan_stores_every_readable_file
           Examples.blankFiles _ Store.empty "a.pdf" 1 1 (Some "   ") Hin);
    reflexivity.
Defined.

(** * Mention resolution against the store *)

Section ResolutionFacts.

Import Inv.

Variable store : DocumentStore.
Variable target : string.
Hypothesis keys_unique : NoDup (keys store).

Lemma matchingDocIds_filter_entries :
  matchingDocIds store target
  = map fst (filter (fun e => matchesTarget target (snd e)) store).
Proof.
  unfold matchingDocIds, keys.
  assert (H : forall l,
             (forall k d, In (k, d) l -> Store.get store k = Some d) ->
             filter (fun docId =>
                       match Store.get store docId with
                       | Some d => includes (toLowerCase (name d))
                                            (toLowerCase target)
                       | None => false
                       end) (map fst l)
             = map fst (filter (fun e => matchesTarget target (snd e)) l)).
  { induction l as [|[k d] l IH]; simpl; intros Hl; [reflexivity|].
    rewrite (Hl k d) by now left.
    unfold matchesTarget at 1. cbn [snd].
    rewrite IH by (intros k' d' Hin; apply Hl; now right).
    now destruct (includes (toLowerCase (name d)) (toLowerCase target)). }
  apply H. intros k d Hin. now apply In_get.
Qed.

Lemma documentContext_first_match (s1 s2 : DocumentStore) (k : string)
      (d : DocumentRecord) :
  store = (s1 ++ (k, d) :: s2)%list ->
  (forall e, In e s1 -> matchesTarget target (snd e) = false) ->
  matchesTarget target d = true ->
  documentContext store (Some target) = text d.
Proof.
  intros Hsplit Hs1 Hd. unfold documentContext.
  rewrite matchingDocIds_filter_entries.
  assert (Hf : filter (fun e => matchesTarget target (snd e)) store
               = (k, d) :: filter (fun e => matchesTarget target (snd e)) s2).
  { rewrite Hsplit, filter_app. cbn [filter snd]. rewrite Hd.
    replace (filter (fun e => matchesTarget target (snd e)) s1) with
      (@nil (string * DocumentRecord)); [reflexivity|].
    symmetry. clear - Hs1. induction s1 as [|e s IH]; simpl; [reflexivity|].
    rewrite (Hs1 e) by now left. apply IH. intros e' H. apply Hs1. now right. }
  rewrite Hf. cbn [map fst].
  rewrite (In_get store k d keys_unique); [reflexivity|].
  rewrite Hsplit. apply in_or_app. right. now left.
Qed.

End ResolutionFacts.



(** X8: in a store with distinct keys, the context of a targeted
    question is the text of the first record, in enumeration order,
    whose name matches the target; later matches are not consulted. *)
Theorem targeted_context_is_first_match :
  forall (store s1 s2 : DocumentStore) (target k : string)
         (d : DocumentRecord),
    NoDup (keys store) ->
    store = (s1 ++ (k, d) :: s2)%list ->
    (forall e, In e s1 -> Inv.matchesTarget target (snd e) = false) ->
    Inv.matchesTarget target d = true ->
    documentContext store (Some target) = text d.
Proof.
  intros store s1 s2 target k d Hnd. now apply documentContext_first_match.
Qed.

Lemma targeted_context_is_first_match_witness :
  NoDup (keys Examples.reports)
  /\ documentContext Examples.reports (Some "v2")
     = Some Examples.reportV2Text.
Proof.
  assert (H : NoDup (keys Examples.reports)).
  { unfold Examples.reports.
    do 3 apply processDocument_consistent. apply consistent_empty. }
  split; [exact H|].
  apply (targeted_context_is_first_match
           Examples.reports
           [("1-Report.pdf",
             mkDocument "1-Report.pdf" "Report.pdf"
                        (Some Examples.reportText) 1)]
           [("3-notes.pdf",
             mkDocument "3-notes.pdf" "notes.pdf"
                        (Some Examples.notesText) 3)]
           "v2" "2-report_v2.docx"
           (mkDocument "2-report_v2.docx" "report_v2.docx"
                       (Some Examples.reportV2Text) 2) H).
  - reflexivity.
  - intros e [<-|[]]. reflexivity.
  - reflexivity.
Defined.

(** * Ranking in the fallback search *)

Section RankingFacts.

Import Inv.

Lemma insertByScore_perm (x : RankedPassage) (l : list RankedPassage) :
  Permutation (x :: l) (insertByScore x l).
Proof.
  induction l as [|y l IH]; simpl; [apply Permutation_refl|].
  destruct (Qle_bool (p_score y) (p_score x)); [apply Permutation_refl|].
  eapply perm_trans; [apply perm_swap|]. now apply perm_skip.
Qed.

Lemma sortByScore_perm (l : list RankedPassage) :
  Permutation l (sortByScore l).
Proof.
  induction l as [|x l IH]; simpl; [constructor|].
  eapply perm_trans; [apply perm_skip, IH | apply insertByScore_perm].
Qed.

Lemma Qle_bool_false (a b : Q) : Qle_bool a b = false -> (b <= a)%Q.
Proof.
  intros H. destruct (Qlt_le_dec b a) as [Hlt|Hle].
  - now apply Qlt_le_weak.
  - apply Qle_bool_iff in Hle. congruence.
Qed.

Lemma insertByScore_sorted (x : RankedPassage) (l : list RankedPassage) :
  StronglySorted scoreGe l -> StronglySorted scoreGe (insertByScore x l).
Proof.
  induction l as [|y l IH]; simpl; intros Hs.
  - constructor; constructor.
  - inversion Hs as [|? ? Hl Hy]; subst.
    destruct (Qle_bool (p_score y) (p_score x)) eqn:E.
    + apply Qle_bool_iff in E. constructor; [exact Hs|].
      constructor; [exact E|].
      eapply Forall_impl; [|exact Hy].
      intros z Hz. unfold scoreGe in *. eapply Qle_trans; eassumption.
    + apply Qle_bool_false in E. constructor; [now apply IH|].
      eapply Permutation_Forall; [apply insertByScore_perm|].
      constructor; assumption.
Qed.

Lemma sortByScore_sorted (l : list RankedPassage) :
  StronglySorted scoreGe (sortByScore l).
Proof.
  induction l as [|x l IH]; simpl; [constructor|].
  now apply insertByScore_sorted.
Qed.

(** Passages of one score keep their order: the sort is stable. *)
Lemma insertByScore_stable (q : Q) (x : RankedPassage)
      (l : list RankedPassage) :
  StronglySorted scoreGe l ->
  filter (fun r => Qeq_bool (p_score r) q) (insertByScore x l)
  = filter (fun r => Qeq_bool (p_score r) q) (x :: l).
Proof.
  induction l as [|y l IH]; intros Hs; [reflexivity|].
  inversion Hs as [|? ? Hl Hy]; subst. cbn [insertByScore].
  destruct (Qle_bool (p_score y) (p_score x)) eqn:E; [reflexivity|].
  cbn [filter]. rewrite (IH Hl). cbn [filter].
  destruct (Qeq_bool (p_score x) q) eqn:Ex; [|reflexivity].
  destruct (Qeq_bool (p_score y) q) eqn:Ey; [|reflexivity].
  apply Qeq_bool_iff in Ex, Ey.
  assert (Hle : (p_score y <= p_score x)%Q) by (rewrite Ex, Ey; apply Qle_refl).
  apply Qle_bool_iff in Hle. congruence.
Qed.

Lemma sortByScore_stable (q : Q) (l : list RankedPassage) :
  filter (fun r => Qeq_bool (p_score r) q) (sortByScore l)
  = filter (fun r => Qeq_bool (p_score r) q) l.
Proof.
  induction l as [|x l IH]; [reflexivity|].
  cbn [sortByScore fold_right].
  change (fold_right insertByScore [] l) with (sortByScore l).
  rewrite insertByScore_stable by apply sortByScore_sorted.
  cbn [filter]. now rewrite IH.
Qed.

Lemma StronglySorted_app_inv (A : Type) (R : A -> A -> Prop) (l1 l2 : list A) :
  StronglySorted R (l1 ++ l2) ->
  forall a b, In a l1 -> In b l2 -> R a b.
Proof.
  induction l1 as [|x l1 IH]; simpl; intros Hs a b Ha Hb; [destruct Ha|].
  inversion Hs as [|? ? Hl Hx]; subst.
  destruct Ha as [<-|Ha]; [|now apply IH].
  rewrite Forall_forall in Hx. apply Hx. apply in_or_app. now right.
Qed.

Lemma uniqueSources_In (names : list string) (x : string) :
  In x (uniqueSources names) <-> In x names.
Proof.
  induction names as [|n names IH]; simpl; [tauto|].
  rewrite filter_In, IH. split.
  - intros [H|[H _]]; auto.
  - intros [H|H]; [now left|].
    destruct (String.eqb_spec x n) as [->|Hne]; [now left|].
    right. split; [exact H | reflexivity].
Qed.

Lemma NoDup_filter (A : Type) (f : A -> bool) (l : list A) :
  NoDup l -> NoDup (filter f l).
Proof.
  induction 1 as [|x l Hx Hl IH]; simpl; [constructor|].
  destruct (f x); [|exact IH].
  constructor; [|exact IH]. intros H. apply filter_In in H. tauto.
Qed.

Lemma uniqueSources_NoDup (names : list string) : NoDup (uniqueSources names).
Proof.
  induction names as [|n names IH]; simpl; [constructor|].
  constructor; [|now apply NoDup_filter].
  intros H. apply filter_In in H as [_ H].
  now rewrite String.eqb_refl in H.
Qed.

End RankingFacts.

(** X9: sorting the found passages rearranges them without losing or
    adding any, puts them in descending order of score, and keeps
    passages of equal score in the order they were found; so every
    passage among the top five scores at least as high as every passage
    left out. *)
Theorem sortByScore_ranks :
  forall found : list RankedPassage,
    Permutation found (sortByScore found)
    /\ StronglySorted Inv.scoreGe (sortByScore found)
    /\ (forall q,
           filter (fun r => Qeq_bool (p_score r) q) (sortByScore found)
           = filter (fun r => Qeq_bool (p_score r) q) found)
    /\ (forall a b,
           In a (firstn 5 (sortByScore found)) ->
           In b (skipn 5 (sortByScore found)) ->
           (p_score b <= p_score a)%Q).
Proof.
  intros found. split; [apply sortByScore_perm|].
  split; [apply sortByScore_sorted|]. split.
  - intros q. apply sortByScore_stable.
  - intros a b Ha Hb.
    apply (StronglySorted_app_inv _ Inv.scoreGe
             (firstn 5 (sortByScore found)) (skipn 5 (sortByScore found)));
      [|exact Ha|exact Hb].
    rewrite firstn_skipn. apply sortByScore_sorted.
Qed.

(** X10: the summary line of a composed answer names every source
    document of the listed passages, each exactly once. *)
Theorem uniqueSources_distinct :
  forall names : list string,
    NoDup (uniqueSources names)
    /\ forall x, In x (uniqueSources names) <-> In x names.
Proof.
  intros names. split; [apply uniqueSources_NoDup|].
  intros x. apply uniqueSources_In.
Qed.

(** * Outcomes of the fallback search *)

Section FallbackOutcomes.

Lemma matchingParagraphs_None (keywords : list string)
      (docs : list DocumentRecord) :
  matchingParagraphs keywords docs = None
  <-> exists d, In d docs /\ text d = None.
Proof.
  induction docs as [|doc docs IH]; simpl.
  - split; [discriminate | intros (d & [] & _)].
  - destruct (text doc) as [t|] eqn:Ht.
    + destruct (matchingParagraphs keywords docs) as [found|].
      * split; [discriminate|].
        intros (d & [<-|Hin] & Hd); [congruence|].
        assert (H : Some found = None) by (apply IH; now exists d).
        discriminate.
      * split; [|reflexivity]. intros _.
        destruct (proj1 IH eq_refl) as (d & Hin & Hd).
        exists d. split; [now right | exact Hd].
    + split; [|reflexivity]. intros _. exists doc. split; [now left | exact Ht].
Qed.

Lemma composeAnswer_head (cleaned : string) (top : list RankedPassage) :
  exists rest, composeAnswer cleaned top = String "B" rest.
Proof. unfold composeAnswer. simpl append. eexists. reflexivity. Qed.

Lemma sortByScore_nil (l : list RankedPassage) :
  sortByScore l = [] <-> l = [].
Proof.
  split; [|now intros ->].
  intros H. pose proof (sortByScore_perm l) as Hp. rewrite H in Hp.
  now apply Permutation_nil, Permutation_sym.
Qed.

Lemma fallbackSearch_error (store : DocumentStore) (cleaned : string) :
  fallbackSearch store cleaned = SEARCH_ERROR
  <-> exists d, In d (values store) /\ text d = None.
Proof.
  rewrite <- (matchingParagraphs_None (keywordsOf cleaned)).
  unfold fallbackSearch.
  destruct (matchingParagraphs (keywordsOf cleaned) (values store))
    as [found|]; [|tauto].
  split; [|discriminate].
  destruct (0 <? List.length (firstn 5 (sortByScore found))).
  - destruct (composeAnswer_head cleaned (firstn 5 (sortByScore found)))
      as [rest ->]. discriminate.
  - discriminate.
Qed.

Lemma fallbackSearch_no_match (store : DocumentStore) (cleaned : string) :
  fallbackSearch store cleaned = NO_MATCHING_INFORMATION
  <-> matchingParagraphs (keywordsOf cleaned) (values store) = Some [].
Proof.
  unfold fallbackSearch.
  destruct (matchingParagraphs (keywordsOf cleaned) (values store))
    as [found|]; [|split; discriminate].
  destruct (sortByScore found) as [|r sorted] eqn:Hs.
  - apply (proj1 (sortByScore_nil found)) in Hs. subst found. simpl. tauto.
  - change (firstn 5 (r :: sorted)) with (r :: firstn 4 sorted).
    change (0 <? List.length (r :: firstn 4 sorted)) with true. cbv iota.
    destruct (composeAnswer_head cleaned (r :: firstn 4 sorted)) as [rest ->].
    split; [discriminate|].
    intros [= ->]. discriminate.
Qed.

Lemma matchingParagraphs_nil (keywords : list string)
      (docs : list DocumentRecord) :
  (forall d, In d docs -> text d <> None) ->
  (matchingParagraphs keywords docs = Some []
   <-> forall d t p, In d docs -> text d = Some t -> In p (paragraphsOf t) ->
                     keywordMatches keywords p = []).
Proof.
  intros Hpresent.
  destruct (matchingParagraphs keywords docs) as [found|] eqn:Hfound.
  - pose proof (In_matchingParagraphs keywords docs found Hfound) as Hin.
    split.
    + intros [= ->] d t p Hd Ht Hp.
      destruct (scoreParagraph keywords p) as [sc|] eqn:Hsc.
      * exfalso. apply (proj2 (Hin (mkPassage p sc (name d)))).
        exists d, t. split; [exact Hd|]. split; [exact Ht|].
        apply In_scoreParagraphs. auto.
      * apply scoreParagraph_skips in Hsc.
        now destruct (keywordMatches keywords p).
    + intros Hnone. f_equal.
      destruct found as [|r found]; [reflexivity|]. exfalso.
      destruct (proj1 (Hin r) (or_introl eq_refl))
        as (d & t & Hd & Ht & Hr).
      apply In_scoreParagraphs in Hr as (Hp & _ & Hsc).
      assert (Hsome : scoreParagraph keywords (p_text r) <> None) by congruence.
      apply Hsome, scoreParagraph_skips.
      now rewrite (Hnone d t (p_text r) Hd Ht Hp).
  - exfalso. apply matchingParagraphs_None in Hfound as (d & Hd & Ht).
    now apply (Hpresent d Hd).
Qed.

End FallbackOutcomes.

(** X11: the fallback search answers with the search-error apology
    exactly when some stored record has no text value; no other
    content of the store or of the question leads there. *)
Theorem fallback_apology_iff_text_missing :
  forall (store : DocumentStore) (cleaned : string),
    fallbackSearch store cleaned = SEARCH_ERROR
    <-> exists d, In d (values store) /\ text d = None.
Proof. exact fallbackSearch_error. Qed.

(** X12: when every stored record has a text, the fallback search
    answers with the fixed no-matching message exactly when no retained
    paragraph (trimmed, longer than 30 characters) of any document
    contains a keyword of the question; in particular it does so for
    every question that has no word longer than three characters. *)
Theorem fallback_no_match_iff :
  forall (store : DocumentStore) (cleaned : string),
    (forall d, In d (values store) -> text d <> None) ->
    (fallbackSearch store cleaned = NO_MATCHING_INFORMATION
     <-> forall d t p,
        In d (values store) -> text d = Some t -> In p (paragraphsOf t) ->
        keywordMatches (keywordsOf cleaned) p = [])
    /\ (keywordsOf cleaned = [] ->
        fallbackSearch store cleaned = NO_MATCHING_INFORMATION).
Proof.
  intros store cleaned Hpresent.
  assert (Hiff := matchingParagraphs_nil (keywordsOf cleaned) (values store)
                    Hpresent).
  split.
  - rewrite fallbackSearch_no_match. exact Hiff.
  - intros Hk. apply fallbackSearch_no_match, Hiff.
    intros d t p _ _ _. now rewrite Hk.
Qed.

Lemma fallback_no_match_iff_witness :
  (forall d, In d (values Examples.reports) -> text d <> None)
  /\ keywordsOf "why is it so" = []
  /\ fallbackSearch Examples.reports "why is it so" = NO_MATCHING_INFORMATION.
Proof.
  assert (H : forall d, In d (values Examples.reports) -> text d <> None).
  { intros d [<-|[<-|[<-|[]]]]; discriminate. }
  split; [exact H|]. split; [reflexivity|].
  exact (proj2 (fallback_no_match_iff Examples.reports "why is it so" H)
               eq_refl).
Defined.

(** * Replies of the chat handler *)

Section ReplyFacts.

Import Inv.

Variable srv : Services.
Variable store : DocumentStore.
Variable message : string.
Variable chatId : option string.

(** The handler either replies with an error before any external
    call, or passes every check and runs the completion attempt. *)
Lemma chat_reaches :
  (snd (chat srv store message chatId) = []
   /\ status (fst (chat srv store message chatId)) <> 200
   /\ success (fst (chat srv store message chatId)) = false)
  \/ exists context,
      store <> []
      /\ keyConfigured srv = true
      /\ documentContext store (fst (parseMention message)) = Some context
      /\ trim context <> ""
      /\ chat srv store message chatId
         = bind (answerStage srv store context (snd (parseMention message)))
                (persist srv chatId (snd (parseMention message))).
Proof.
  unfold chat.
  destruct store as [|e s] eqn:Hstore; [left; repeat split; discriminate|].
  cbn [keys map List.length Nat.eqb]. rewrite <- Hstore.
  pose proof (mentionStage_cases store message) as Hm.
  unfold mentionStage in *.
  destruct (parseMention message) as [[t|] c]; cbn [fst snd].
  - destruct (List.length (matchingDocIds store t) =? 0);
      [left; repeat split; discriminate|].
    destruct (documentContext store (Some t)) as [context|];
      [|left; repeat split; discriminate].
    destruct (String.eqb context "" || String.eqb (trim context) "") eqn:Hb;
      [left; repeat split; discriminate|].
    destruct (keyConfigured srv) eqn:Hk;
      [|left; repeat split; discriminate].
    right. exists context. apply orb_false_elim in Hb as [_ Hb].
    apply String.eqb_neq in Hb. rewrite Hstore at 1.
    repeat split; try assumption; try reflexivity. discriminate.
  - destruct (documentContext store None) as [context|];
      [|left; repeat split; discriminate].
    destruct (String.eqb context "" || String.eqb (trim context) "") eqn:Hb;
      [left; repeat split; discriminate|].
    destruct (keyConfigured srv) eqn:Hk;
      [|left; repeat split; discriminate].
    right. exists context. apply orb_false_elim in Hb as [_ Hb].
    apply String.eqb_neq in Hb. rewrite Hstore at 1.
    repeat split; try assumption; try reflexivity. discriminate.
Qed.

Lemma persist_history (cleaned response cid q a : string) :
  In (CallInsertHistory cid q a) (snd (persist srv chatId cleaned response)) ->
  q = cleaned /\ a = response
  /\ Chat.chatId (fst (persist srv chatId cleaned response)) = Some cid.
Proof.
  unfold persist, bind, callCreateSession, callInsertHistory, ret.
  destruct chatId as [c|]; [destruct (String.eqb c "")|];
    try (destruct (createSession srv) as [[newId|]| |]); simpl;
    intros H;
    repeat match goal with
           | H : _ \/ _ |- _ => destruct H as [H|H]
           | H : False |- _ => destruct H
           | H : CallCreateSession = _ |- _ => discriminate H
           | H : CallInsertHistory _ _ _ = CallInsertHistory _ _ _ |- _ =>
               inversion H; subst; clear H
           end;
    repeat split; reflexivity.
Qed.

End ReplyFacts.

(** X13: whenever the handler called the completion service and the
    call returned a content, the request is answered with status 200
    and the answer is that content, trimmed, followed by the fixed note
    on how it was generated; the fallback search plays no part. *)
Theorem completion_success_is_returned :
  forall (srv : Services) (store : DocumentStore) (message : string)
         (chatId : option string) (sys usr content : string),
    In (CallCompletion sys usr) (snd (chat srv store message chatId)) ->
    complete srv sys usr = Completed content ->
    status (fst (chat srv store message chatId)) = 200
    /\ success (fst (chat srv store message chatId)) = true
    /\ answer (fst (chat srv store message chatId))
       = trim content ++ GENERATED_NOTE.
Proof.
  intros srv store message chatId sys usr content Hin Hok.
  destruct (chat_completion_call srv store message chatId sys usr Hin)
    as (context & _ & _ & _ & Hreply).
  rewrite Hok in Hreply. rewrite Hreply.
  destruct (persist_replies srv chatId (snd (parseMention message))
              (trim content ++ GENERATED_NOTE)) as (Hst & Hs & Ha & _).
  now rewrite Hst, Hs, Ha.
Qed.

Lemma completion_success_is_returned_witness :
  In (CallCompletion systemMessage
        (userMessage Examples.reportText "what is latency"))
     (snd (chat (mkServices (Some "k") (fun _ _ => Completed "  It is delay. ")
                            CreateThrew (fun _ _ _ => true))
                Examples.reports "@report what is latency" None))
  /\ answer (fst (chat (mkServices (Some "k")
                                   (fun _ _ => Completed "  It is delay. ")
                                   CreateThrew (fun _ _ _ => true))
                       Examples.reports "@report what is latency" None))
     = trim "  It is delay. " ++ GENERATED_NOTE.
Proof.
  assert (Hin : In (CallCompletion systemMessage
                      (userMessage Examples.reportText "what is latency"))
                   (snd (chat (mkServices (Some "k")
                                 (fun _ _ => Completed "  It is delay. ")
                                 CreateThrew (fun _ _ _ => true))
                              Examples.reports "@report what is latency" None)))
    by (left; reflexivity).
  split; [exact Hin|].
  exact (proj2 (proj2 (completion_success_is_returned
                         _ _ _ _ _ _ "  It is delay. " Hin eq_refl))).
Defined.

(** X14: a request makes no external call at all and is answered with
    an error (status other than 200, [success = false]), or it has a
    configured API key, calls the completion service exactly once,
    before any call to the session store, and is answered with status
    200.  Without a configured key not even the fallback search is
    used. *)
Theorem chat_calls_completion_once :
  forall (srv : Services) (store : DocumentStore) (message : string)
         (chatId : option string),
    (snd (chat srv store message chatId) = []
     /\ status (fst (chat srv store message chatId)) <> 200
     /\ success (fst (chat srv store message chatId)) = false)
    \/ (keyConfigured srv = true
        /\ status (fst (chat srv store message chatId)) = 200
        /\ success (fst (chat srv store message chatId)) = true
        /\ exists usr rest,
            snd (chat srv store message chatId)
            = CallCompletion systemMessage usr :: rest
            /\ forall s u, ~ In (CallCompletion s u) rest).
Proof.
  intros srv store message chatId.
  destruct (chat_reaches srv store message chatId)
    as [H|(context & _ & Hkey & _ & _ & Hchat)]; [now left|].
  right. split; [exact Hkey|].
  rewrite Hchat, bind_answer_persist. cbn [fst snd].
  match goal with
  | |- context [persist srv chatId ?c ?r] =>
      destruct (persist_replies srv chatId c r) as (Hst & Hs & _ & Hno)
  end.
  split; [exact Hst|]. split; [exact Hs|].
  eexists _, _. split; [reflexivity | exact Hno].
Qed.

(** X15: the status, the success flag and the answer of a reply do not
    depend on the session store: two environments with the same API
    key and the same completion service give the same three values,
    whatever their session stores do. *)
Theorem answer_independent_of_session_store :
  forall (srv srv' : Services) (store : DocumentStore) (message : string)
         (chatId : option string),
    GROQ_API_KEY srv = GROQ_API_KEY srv' ->
    (forall sys usr, complete srv sys usr = complete srv' sys usr) ->
    status (fst (chat srv store message chatId))
    = status (fst (chat srv' store message chatId))
    /\ success (fst (chat srv store message chatId))
       = success (fst (chat srv' store message chatId))
    /\ answer (fst (chat srv store message chatId))
       = answer (fst (chat srv' store message chatId)).
Proof.
  intros srv srv' store message chatId Hkey Hcomplete.
  assert (Hk : keyConfigured srv = keyConfigured srv')
    by (unfold keyConfigured; now rewrite Hkey).
  unfold chat.
  destruct (List.length (keys store) =? 0); [repeat split|].
  destruct (mentionStage store message) as [r|[target cleaned]];
    [repeat split|].
  destruct (documentContext store target) as [context|]; [|repeat split].
  destruct (String.eqb context "" || String.eqb (trim context) "");
    [repeat split|].
  rewrite <- Hk.
  destruct (negb (keyConfigured srv)); [repeat split|].
  rewrite !bind_answer_persist. cbn [fst]. rewrite <- Hcomplete.
  repeat match goal with
         | |- context [persist ?s chatId ?c ?r] =>
             let Hst := fresh in let Hs := fresh in let Ha := fresh in
             destruct (persist_replies s chatId c r) as (Hst & Hs & Ha & _);
             rewrite Hst, Hs, Ha
         end.
  repeat split.
Qed.

Lemma answer_independent_of_session_store_witness :
  GROQ_API_KEY Examples.failingServices
  = GROQ_API_KEY (mkServices (Some "gsk_test")
                             (fun _ _ => Failed NetworkError)
                             (Created (Some "c1")) (fun _ _ _ => false))
  /\ answer (fst (chat Examples.failingServices Examples.reports
                       "explain throughput" None))
     = answer (fst (chat (mkServices (Some "gsk_test")
                                     (fun _ _ => Failed NetworkError)
                                     (Created (Some "c1"))
                                     (fun _ _ _ => false))
                         Examples.reports "explain throughput" None)).
Proof.
  split; [reflexivity|].
  apply (answer_independent_of_session_store
           Examples.failingServices
           (mkServices (Some "gsk_test") (fun _ _ => Failed NetworkError)
                       (Created (Some "c1")) (fun _ _ _ => false))
           Examples.reports "explain throughput" None eq_refl).
  intros sys usr. reflexivity.
Defined.

(** X16: whatever the handler writes to the chat history is the
    exchange it answers with: the question recorded is the cleaned
    message (the question without its @mention), the answer recorded is
    the answer of the reply, and the chat id written to is the chat id
    of the reply. *)
Theorem recorded_exchange_is_the_reply :
  forall (srv : Services) (store : DocumentStore) (message : string)
         (chatId : option string) (cid q a : string),
    In (CallInsertHistory cid q a) (snd (chat srv store message chatId)) ->
    q = snd (parseMention message)
    /\ a = answer (fst (chat srv store message chatId))
    /\ Chat.chatId (fst (chat srv store message chatId)) = Some cid
    /\ status (fst (chat srv store message chatId)) = 200.
Proof.
  intros srv store message chatId cid q a Hin.
  destruct (chat_reaches srv store message chatId)
    as [[Hlog _]|(context & _ & _ & _ & _ & Hchat)].
  - rewrite Hlog in Hin. destruct Hin.
  - rewrite Hchat, bind_answer_persist in Hin |- *. cbn [fst snd] in Hin |- *.
    destruct Hin as [Hin|Hin]; [discriminate|].
    match goal with
    | |- context [persist srv chatId ?c ?r] =>
        destruct (persist_replies srv chatId c r) as (Hst & _ & Ha & _);
        destruct (persist_history srv chatId c r cid q a Hin) as (-> & -> & Hc)
    end.
    now rewrite Ha, Hst.
Qed.

Lemma recorded_exchange_is_the_reply_witness :
  In (CallInsertHistory "c7" "what is latency"
        (trim "It is delay." ++ GENERATED_NOTE))
     (snd (chat (mkServices (Some "k") (fun _ _ => Completed "It is delay.")
                            CreateThrew (fun _ _ _ => true))
                Examples.reports "@report what is latency" (Some "c7")))
  /\ "what is latency" = snd (parseMention "@report what is latency").
Proof.
  assert (Hin : In (CallInsertHistory "c7" "what is latency"
                      (trim "It is delay." ++ GENERATED_NOTE))
                   (snd (chat (mkServices (Some "k")
                                 (fun _ _ => Completed "It is delay.")
                                 CreateThrew (fun _ _ _ => true))
                              Examples.reports "@report what is latency"
                              (Some "c7"))))
    by (right; left; reflexivity).
  split; [exact Hin|].
  exact (proj1 (recorded_exchange_is_the_reply _ _ _ _ _ _ _ Hin)).
Defined.

(** * Blank contexts *)

Section BlankFacts.

Import Inv.

Lemma trimStart_allSpace (s : string) :
  allSpace s = true -> trimStart s = "".
Proof.
  induction s as [|c s IH]; simpl; [reflexivity|].
  intros H. apply andb_prop in H as [Hc Hs]. rewrite Hc. now apply IH.
Qed.

Lemma trim_empty_iff (s : string) : trim s = "" <-> allSpace s = true.
Proof.
  split.
  - induction s as [|c s IH]; [reflexivity|].
    cbn [allSpace]. destruct (is_space c) eqn:Hc.
    + intros H. apply IH. unfold trim in *. cbn [trimStart] in H.
      now rewrite Hc in H.
    + intros H. now apply trim_head_not_space in H.
  - intros H. unfold trim. now rewrite trimStart_allSpace.
Qed.

Lemma allSpace_append (a b : string) :
  allSpace (a ++ b) = allSpace a && allSpace b.
Proof.
  induction a as [|c a IH]; simpl; [reflexivity|].
  now rewrite IH, andb_assoc.
Qed.

Lemma allSpace_join (sep : string) (l : list string) :
  allSpace sep = true -> allSpace (join sep l) = forallb allSpace l.
Proof.
  intros Hsep. induction l as [|p l IH]; [reflexivity|].
  destruct l as [|p' l].
  - simpl. now rewrite andb_true_r.
  - change (join sep (p :: p' :: l)) with (p ++ sep ++ join sep (p' :: l)).
    rewrite !allSpace_append, Hsep, IH. reflexivity.
Qed.

Lemma blank_check (context : string) :
  String.eqb context "" || String.eqb (trim context) "" = allSpace context.
Proof.
  destruct (allSpace context) eqn:H.
  - apply trim_empty_iff in H. rewrite H. apply orb_true_r.
  - apply orb_false_intro.
    + apply String.eqb_neq. intros ->. discriminate.
    + apply String.eqb_neq. intros E. apply trim_empty_iff in E. congruence.
Qed.

Lemma isBlank_allSpace (t : option string) :
  isBlank t = allSpace (match t with Some s => s | None => EmptyString end).
Proof. destruct t as [s|]; [apply blank_check | reflexivity]. Qed.

Lemma allDocumentsContext_blank (store : DocumentStore) :
  allSpace (allDocumentsContext store)
  = forallb (fun d => isBlank (text d)) (values store).
Proof.
  unfold allDocumentsContext.
  rewrite allSpace_join by reflexivity.
  induction (values store) as [|d l IH]; simpl; [reflexivity|].
  now rewrite IH, isBlank_allSpace.
Qed.

Lemma parseMention_no_target (message : string) :
  fst (parseMention message) = None -> parseMention message = (None, message).
Proof.
  unfold parseMention.
  destruct (mentionMatch message) as [[[pre tok] post]|];
    [discriminate | reflexivity].
Qed.

Lemma In_values (s : DocumentStore) (d : DocumentRecord) :
  In d (values s) <-> exists k, In (k, d) s.
Proof.
  unfold values. rewrite in_map_iff. split.
  - intros ([k d'] & E & Hin). simpl in E. subst. now exists k.
  - intros (k & Hin). now exists (k, d).
Qed.

Lemma processDocument_readable fs fileName now date s :
  readable s -> readable (processDocument fs fileName now date s).
Proof.
  intros Hs.
  destruct (processDocument_cases fs fileName now date s)
    as [_ [->|(_ & _ & t & Ht & ->)]]; [exact Hs|].
  intros d Hd. apply In_values in Hd as [k Hd].
  apply In_set in Hd as [[= -> ->]|Hd].
  - now exists t.
  - apply Hs, In_values. now exists k.
Qed.

Lemma removeByFileName_readable s filename :
  readable s -> readable (removeByFileName s filename).
Proof.
  intros Hs. unfold removeByFileName.
  destruct (find _ (keys s)) as [k|]; [|exact Hs].
  destruct (String.eqb k ""); [exact Hs|].
  intros d Hd. apply In_values in Hd as [k' Hd].
  apply delete_keeps_records in Hd. apply Hs, In_values. now exists k'.
Qed.

Lemma onWatchEvent_readable fs eventType filename now date s :
  readable s -> readable (onWatchEvent fs eventType filename now date s).
Proof.
  intros Hs. unfold onWatchEvent.
  destruct eventType; [|exact Hs].
  destruct filename as [f|]; [|exact Hs].
  destruct (String.eqb f ""); [exact Hs|].
  destruct (existsSync fs f && supportedName f);
    [now apply processDocument_readable|].
  destruct (negb (existsSync fs f));
    [now apply removeByFileName_readable | exact Hs].
Qed.

Lemma scanFiles_readable fs files :
  forall s, readable s -> readable (scanFiles fs files s).
Proof.
  induction files as [|[[file now] date] files IH]; simpl; intros s Hs;
    [exact Hs|].
  destruct (supportedName file); apply IH; [|exact Hs].
  now apply processDocument_readable.
Qed.

End BlankFacts.

(** X17: a question without a mention, asked against a store that is
    not empty but whose records all have an absent, empty or
    white-space-only text, is answered like an empty store: status 400
    with the no-documents message and no external call. *)
Theorem blank_store_reads_as_no_documents :
  forall (srv : Services) (store : DocumentStore) (message : string)
         (chatId : option string),
    store <> [] ->
    fst (parseMention message) = None ->
    (forall d, In d (values store) -> isBlank (text d) = true) ->
    chat srv store message chatId = (reply 400 false NO_DOCUMENTS, []).
Proof.
  intros srv store message chatId Hne Hnone Hblank.
  unfold chat, mentionStage.
  destruct store as [|e s] eqn:Hstore; [now elim Hne|].
  cbn [keys map List.length Nat.eqb]. rewrite <- Hstore in *.
  rewrite (parseMention_no_target _ Hnone). cbn [documentContext].
  rewrite blank_check, allDocumentsContext_blank.
  replace (forallb (fun d => isBlank (text d)) (values store)) with true;
    [reflexivity|].
  symmetry. apply forallb_forall. exact Hblank.
Qed.

Lemma blank_store_reads_as_no_documents_witness :
  [("1-a.pdf", mkDocument "1-a.pdf" "a.pdf" (Some "  ") 1)] <> []
  /\ fst (parseMention "what is inside") = None
  /\ chat Examples.failingServices
          [("1-a.pdf", mkDocument "1-a.pdf" "a.pdf" (Some "  ") 1)]
          "what is inside" None
     = (reply 400 false NO_DOCUMENTS, []).
Proof.
  split; [discriminate|]. split; [reflexivity|].
  apply blank_store_reads_as_no_documents;
    [discriminate | reflexivity | intros d [<-|[]]; reflexivity].
Defined.

(** X18: a question without a mention, asked with a configured API key
    against a store in which at least one record has a text that is not
    blank, always reaches the completion service, with the
    concatenation of all texts as context and the question unchanged,
    and is answered with status 200. *)
Theorem untargeted_question_is_answered :
  forall (srv : Services) (store : DocumentStore) (message : string)
         (chatId : option string),
    fst (parseMention message) = None ->
    keyConfigured srv = true ->
    (exists d, In d (values store) /\ isBlank (text d) = false) ->
    status (fst (chat srv store message chatId)) = 200
    /\ success (fst (chat srv store message chatId)) = true
    /\ In (CallCompletion systemMessage
             (userMessage (allDocumentsContext store) message))
          (snd (chat srv store message chatId)).
Proof.
  intros srv store message chatId Hnone Hkey (d & Hd & Hblank).
  assert (Hchat :
            chat srv store message chatId
            = bind (answerStage srv store (allDocumentsContext store) message)
                   (persist srv chatId message)).
  { unfold chat, mentionStage.
    destruct store as [|e s] eqn:Hstore; [destruct Hd|].
    cbn [keys map List.length Nat.eqb]. rewrite <- Hstore in *.
    rewrite (parseMention_no_target _ Hnone). cbn [documentContext].
    rewrite blank_check, allDocumentsContext_blank, Hkey. cbn [negb].
    replace (forallb (fun d => isBlank (text d)) (values store)) with false;
      [reflexivity|].
    symmetry. apply not_true_is_false. intros Hall.
    rewrite forallb_forall in Hall. rewrite (Hall d Hd) in Hblank.
    discriminate. }
  rewrite Hchat, bind_answer_persist. cbn [fst snd].
  match goal with
  | |- context [persist srv chatId ?c ?r] =>
      destruct (persist_replies srv chatId c r) as (Hst & Hs & _ & _)
  end.
  split; [exact Hst|]. split; [exact Hs | now left].
Qed.

Lemma untargeted_question_is_answered_witness :
  fst (parseMention "explain throughput") = None
  /\ keyConfigured Examples.failingServices = true
  /\ status (fst (chat Examples.failingServices Examples.reports
                       "explain throughput" None)) = 200.
Proof.
  split; [reflexivity|]. split; [reflexivity|].
  apply (untargeted_question_is_answered
           Examples.failingServices Examples.reports "explain throughput" None);
    [reflexivity | reflexivity|].
  exists (mkDocument "3-notes.pdf" "notes.pdf" (Some Examples.notesText) 3).
  split; [right; right; left; reflexivity | reflexivity].
Defined.

(** X19: the watcher and the start-up scan only ever leave records
    whose text is present and not blank: from a store with that
    property every watcher event and every scan yields a store with
    it, and on such a store the fallback search never answers with the
    search-error apology. *)
Theorem watcher_keeps_store_readable :
  forall (fs : FileSystem) (store : DocumentStore),
    Inv.readable store ->
    (forall eventType filename now date,
        Inv.readable (onWatchEvent fs eventType filename now date store))
    /\ (forall listing, Inv.readable (scanDirectory fs listing store))
    /\ (forall cleaned, fallbackSearch store cleaned <> SEARCH_ERROR).
Proof.
  intros fs store Hs. split; [|split].
  - intros. now apply onWatchEvent_readable.
  - intros [files|]; simpl; [now apply scanFiles_readable | exact Hs].
  - intros cleaned H. apply fallbackSearch_error in H as (d & Hd & Ht).
    destruct (Hs d Hd) as (s & Hs' & _). congruence.
Qed.

Lemma watcher_keeps_store_readable_witness :
  Inv.readable Store.empty
  /\ Inv.readable
       (scanDirectory Examples.blankFiles (Some [("a.pdf", 1%N, 1%N)])
                      Store.empty).
Proof.
  assert (H : Inv.readable Store.empty) by (intros d []).
  split; [exact H|].
  apply (proj1 (proj2 (watcher_keeps_store_readable
                         Examples.blankFiles Store.empty H))).
Defined.

(** * Listing, diagnostics and chat titles *)

Section ListingFacts.

Import Inv.

Lemma lastChar_append (pre : string) (c : ascii) (r : string) :
  lastChar (pre ++ String c r) = lastChar (String c r).
Proof.
  induction pre as [|x pre IH]; [reflexivity|].
  change (String x pre ++ String c r) with (String x (pre ++ String c r)).
  cbn [lastChar] in *. rewrite IH. now destruct (lastChar r).
Qed.

Lemma endsWith_inv (s suffix : string) :
  endsWith s suffix = true -> exists pre, s = pre ++ suffix.
Proof.
  induction s as [|c s IH]; cbn [endsWith]; intros H.
  - rewrite orb_false_r in H. apply String.eqb_eq in H. subst. now exists "".
  - apply orb_prop in H as [H|H].
    + apply String.eqb_eq in H. subst. now exists "".
    + destruct (IH H) as [pre ->]. now exists (String c pre).
Qed.

Lemma pdf_excludes_word (s : string) :
  endsWith s ".pdf" = true ->
  endsWith s ".doc" || endsWith s ".docx" = false.
Proof.
  intros Hpdf. apply endsWith_inv in Hpdf as [pre ->].
  apply orb_false_intro; apply not_true_is_false; intros H;
    apply endsWith_inv in H as [pre' E];
    apply (f_equal lastChar) in E;
    simpl append in E; rewrite !lastChar_append in E; discriminate.
Qed.

Lemma exclusive_filters (A : Type) (f g : A -> bool) (l : list A) :
  (forall x, f x = true -> g x = false) ->
  List.length (filter f l) + List.length (filter g l) <= List.length l.
Proof.
  intros H. induction l as [|x l IH]; simpl; [lia|].
  destruct (f x) eqn:Hf.
  - rewrite (H x Hf). simpl. lia.
  - destruct (g x); simpl; lia.
Qed.

Lemma substring_0_all (n : nat) (s : string) :
  String.length s <= n -> substring 0 n s = s.
Proof.
  revert s; induction n as [|n IH]; intros [|c s]; simpl; intros H;
    try reflexivity; [lia|].
  rewrite IH by lia. reflexivity.
Qed.

Lemma lower_char_idempotent (c : ascii) :
  lower_char (lower_char c) = lower_char c.
Proof.
  destruct c as [[] [] [] [] [] [] [] []]; vm_compute; reflexivity.
Qed.

Lemma toLowerCase_idempotent (s : string) :
  toLowerCase (toLowerCase s) = toLowerCase s.
Proof.
  induction s as [|c s IH]; simpl; [reflexivity|].
  now rewrite lower_char_idempotent, IH.
Qed.

End ListingFacts.

(** X20: in the diagnostics the total is the number of stored records
    and the PDF count plus the Word count never exceeds it, since no
    name ends both in [.pdf] and in [.doc] or [.docx]; the listing of
    [/api/documents] has one entry per record and as many entries typed
    PDF as the diagnostics count PDF documents. *)
Theorem diagnostics_counts_agree :
  forall store : DocumentStore,
    totalDocuments (documentStoreStatus store) = List.length (values store)
    /\ pdfDocuments (documentStoreStatus store)
       + wordDocuments (documentStoreStatus store)
       <= totalDocuments (documentStoreStatus store)
    /\ List.length (listDocuments store)
       = totalDocuments (documentStoreStatus store)
    /\ List.length (filter Inv.isPdfEntry (listDocuments store))
       = pdfDocuments (documentStoreStatus store).
Proof.
  intros store. unfold documentStoreStatus, listDocuments, keys, values.
  cbn [totalDocuments pdfDocuments wordDocuments].
  rewrite !length_map. split; [reflexivity|]. split; [|split; [reflexivity|]].
  - rewrite <- (length_map snd store).
    apply exclusive_filters. intros d. apply pdf_excludes_word.
  - induction (map snd store) as [|d l IH]; simpl; [reflexivity|].
    unfold Inv.isPdfEntry at 1. cbn [info_type].
    destruct (endsWith (toLowerCase (name d)) ".pdf"); simpl; now rewrite IH.
Qed.

(** X21: the title of a chat session is the first message itself when
    it has at most 30 characters, and otherwise its first 30 characters
    followed by three dots; it never exceeds 33 characters. *)
Theorem chatTitle_bounded :
  forall user_message : string,
    String.length (chatTitle user_message) <= 33
    /\ (String.length user_message <= 30 ->
        chatTitle user_message = user_message)
    /\ (30 < String.length user_message ->
        chatTitle user_message = substring 0 30 user_message ++ "..."
        /\ String.length (chatTitle user_message) = 33).
Proof.
  intros m. unfold chatTitle.
  destruct (30 <? String.length m) eqn:E.
  - apply Nat.ltb_lt in E.
    assert (Hlen : String.length (substring 0 30 m ++ "...") = 33).
    { rewrite length_append, substring_0_length. simpl String.length. lia. }
    split; [lia|]. split; [lia | now split].
  - apply Nat.ltb_ge in E. rewrite append_nil_r, substring_0_all by exact E.
    split; [lia|]. split; [reflexivity | lia].
Qed.

Lemma chatTitle_bounded_witness :
  30 < String.length "please summarise the quarterly report for me"
  /\ chatTitle "please summarise the quarterly report for me"
     = "please summarise the quarterly..."
  /\ String.length "hello" <= 30
  /\ chatTitle "hello" = "hello".
Proof.
  assert (H : 30 < String.length "please summarise the quarterly report for me")
    by (vm_compute; lia).
  split; [exact H|].
  split.
  - exact (proj1 (proj2 (proj2 (chatTitle_bounded
                                  "please summarise the quarterly report for me"))
                        H)).
  - assert (H' : String.length "hello" <= 30) by (vm_compute; lia).
    split; [exact H'|].
    exact (proj1 (proj2 (chatTitle_bounded "hello")) H').
Defined.

(** X22: keyword matching in the fallback search ignores letter case
    on both sides: lower-casing the question or the paragraph
    beforehand changes neither the keywords nor the keywords found in
    the paragraph. *)
Theorem keyword_matching_ignores_case :
  forall (cleaned paragraph : string),
    keywordsOf (toLowerCase cleaned) = keywordsOf cleaned
    /\ keywordMatches (keywordsOf (toLowerCase cleaned))
                      (toLowerCase paragraph)
       = keywordMatches (keywordsOf cleaned) paragraph.
Proof.
  intros cleaned paragraph.
  assert (H : keywordsOf (toLowerCase cleaned) = keywordsOf cleaned)
    by (unfold keywordsOf; now rewrite toLowerCase_idempotent).
  split; [exact H|].
  unfold keywordMatches. now rewrite H, toLowerCase_idempotent.
Qed.

(** X23: [processDocument] never removes or rewrites a record stored
    under another id: every other key looks up what it looked up
    before.  In particular the record of an earlier ingestion of the
    same file, made at another clock reading, stays in the store
    beside the new one. *)
Theorem processDocument_keeps_other_records :
  forall (fs : FileSystem) (fileName : string) (now date : N)
         (store : DocumentStore),
    (forall k, k <> docId now fileName ->
               Store.get (processDocument fs fileName now date store) k
               = Store.get store k)
    /\ (forall earlier, earlier <> now ->
                        Store.get (processDocument fs fileName now date store)
                                  (docId earlier fileName)
                        = Store.get store (docId earlier fileName)).
Proof.
  intros fs fileName now date store.
  assert (H : forall k, k <> docId now fileName ->
                        Store.get (processDocument fs fileName now date store) k
                        = Store.get store k).
  { intros k Hk.
    destruct (processDocument_cases fs fileName now date store)
      as [_ [->|(_ & _ & t & _ & ->)]]; [reflexivity|].
    now apply get_set_other. }
  split; [exact H|].
  intros earlier Hne. apply H. intros E.
  apply docId_injective in E as [E _]. now apply Hne.
Qed.

Lemma processDocument_keeps_other_records_witness :
  (1 <> 2)%N
  /\ Store.get (processDocument Examples.blankFiles "a.pdf" 2 2
                  (processDocument Examples.plainFiles "a.pdf" 1 1 Store.empty))
               (docId 1 "a.pdf")
     = Store.get (processDocument Examples.plainFiles "a.pdf" 1 1 Store.empty)
                 (docId 1 "a.pdf").
Proof.
  assert (H : (1 <> 2)%N) by discriminate.
  split; [exact H|].
  exact (proj2 (processDocument_keeps_other_records
                  Examples.blankFiles "a.pdf" 2 2
                  (processDocument Examples.plainFiles "a.pdf" 1 1 Store.empty))
               1%N H).
Defined.
